(** * World Data Quiz: a shallow embedding of [quiz_app.py]

    The program is a single Streamlit script.  Every user action and
    every auto-refresh tick re-runs [run_quiz] from the top against the
    per-user dictionary [st.session_state]; the only other durable state
    is the shared Google sheet of attempts and the [st.cache_data] cache
    of the question file.

    The embedding keeps that shape: one render pass is a computation in
    a small state-and-exception monad over a [World]; the things a pass
    cannot control (the clock, the widgets, the random generator, the
    file system and the network) are read from an [Env]. *)

From Stdlib Require Import QArith Qround Ascii Lqa.
From stdpp Require Import gmap strings list sorting.

Local Open Scope Z_scope.

(** ** Data model *)

(** One row of [questions.csv] as [df.to_dict(orient="records")] yields
    it: the columns [question], [options] (semicolon-joined) and
    [answer]. *)
Record Question := mkQuestion {
  q_question : string;
  q_options : string;
  q_answer : string;
}.

(** One row of the sheet, columns [Name, Score, Total, Percentage]. *)
Record AttemptRecord := mkAttempt {
  Name : string;
  Score : Z;
  Total : Z;
  Percentage : Q;
}.

(** The exceptions the script can let escape. *)
Inductive Exn :=
  | FileNotFoundError     (* pd.read_csv: questions.csv is missing *)
  | ParserError           (* pd.read_csv: the file is not a CSV table *)
  | ZeroDivisionError
  | IndexError
  | AttributeError        (* st.session_state.<name> that is not set *)
  | KeyError              (* st.session_state[<key>] that is not set *)
  | StreamlitAPIException (* st.progress outside [0.0, 1.0] *)
  | GSpreadException.     (* credentials, network or API failure *)

(** ** Numbers *)

(** [int(x)] on a float: truncation towards zero.  Timestamps are taken
    as exact rationals. *)
Definition py_int (x : Q) : Z := Z.quot (Qnum x) (Z.pos (Qden x)).

(** [round(x)] to an integer, ties to even, on the exact value. *)
Definition round_half_even (x : Q) : Z :=
  let f := Qfloor x in
  match Qcompare (x - inject_Z f) (1 # 2) with
  | Lt => f
  | Gt => f + 1
  | Eq => if Z.even f then f else f + 1
  end.

(** [round(x, 2)]: the nearest multiple of one hundredth. *)
Definition round2 (x : Q) : Q := Qmake (round_half_even (x * 100)) 100.

(** [round((score / total) * 100, 2)], lines 47 and 224; the caller
    checks [total] against zero first. *)
Definition percentage_of (score total : Z) : Q :=
  round2 ((inject_Z score / inject_Z total) * 100).

(** ** Leaderboard ranking (lines 193-194, 231-232, 253-254) *)

(** [a] may stand before [b] in
    [sort_values(by=["Score","Percentage"], ascending=[False,False])]. *)
Definition key_ge (a b : AttemptRecord) : bool :=
  (Score b <? Score a) ||
  ((Score a =? Score b) && Qle_bool (Percentage b) (Percentage a)).

(** [a] and [b] tie on both sort keys. *)
Definition key_eq (a b : AttemptRecord) : bool :=
  (Score a =? Score b) && Qeq_bool (Percentage a) (Percentage b).

(** Stable insertion: [x], which came earlier in the frame than all of
    [l], goes in front of the first row it may stand before, so in
    front of every row it ties with. *)
Fixpoint insert_row (x : AttemptRecord) (l : list AttemptRecord)
  : list AttemptRecord :=
  match l with
  | [] => [x]
  | y :: l' => if key_ge x y then x :: y :: l' else y :: insert_row x l'
  end.

(** [DataFrame.sort_values] on two keys is pandas' lexsort, a stable
    sort; any two stable sorts agree, so insertion sort stands for it. *)
Fixpoint sort_values (l : list AttemptRecord) : list AttemptRecord :=
  match l with
  | [] => []
  | x :: l' => insert_row x (sort_values l')
  end.

(** [DataFrame.head(n)]. *)
Definition head_rows (n : nat) (l : list AttemptRecord) : list AttemptRecord :=
  take n l.

(** [rank_df.index[rank_df['Name'] == player_name]] after
    [reset_index()]: the positions 0, 1, ... of the matching rows. *)
Fixpoint index_where (p : AttemptRecord → bool) (start : nat)
    (l : list AttemptRecord) : list nat :=
  match l with
  | [] => []
  | x :: l' =>
      if p x then start :: index_where p (S start) l'
      else index_where p (S start) l'
  end.

Definition name_is (player : string) (r : AttemptRecord) : bool :=
  bool_decide (Name r = player).

(** Line 254: [...[0] + 1]; indexing an empty Index raises. *)
Definition player_rank (sorted : list AttemptRecord) (player : string)
  : Exn + nat :=
  match index_where (name_is player) 0%nat sorted with
  | [] => inl IndexError
  | i :: _ => inr (i + 1)%nat
  end.

(** The ranking of section 4.4 as the completion branch computes it. *)
Definition rank (records : list AttemptRecord) (player : string)
  : list AttemptRecord * (Exn + nat) :=
  let leaderboard := sort_values records in
  (head_rows 5 leaderboard, player_rank leaderboard player).

(** The order of the sorted frame, as a relation. *)
Definition before (a b : AttemptRecord) : Prop := key_ge a b = true.

(** [k] is the 1-based position of the first row of [l] named
    [player]. *)
Definition first_named (player : string) (l : list AttemptRecord)
    (k : nat) : Prop :=
  (1 ≤ k)%nat ∧
  (∃ r, l !! (k - 1)%nat = Some r ∧ Name r = player) ∧
  ∀ j r', (j < k - 1)%nat → l !! j = Some r' → Name r' ≠ player.

(** ** The session, the world and the environment *)

(** [st.session_state].  The five named keys are optional fields
    ([None]: the key is not in the dictionary); the three per-question
    key families [answer_{i}], [timer_{i}] and [timer_start_{i}] are
    maps from the question index [i].  The value under [answer_{i}] is
    Python's [None] or the selected option. *)
Record SessionState := mkSession {
  player_name : option string;
  shuffled_questions : option (list Question);
  current_q : option Z;
  score : option Z;
  colors : option (list string);
  answer_ : gmap Z (option string);
  timer_ : gmap Z Z;
  timer_start_ : gmap Z Q;
}.

Definition empty_session : SessionState :=
  mkSession None None None None None ∅ ∅ ∅.

(** The texts of the message boxes. *)
Inductive Message :=
  | Correct
  | TimesUp (answer : string)
  | Wrong (answer : string)
  | QuizCompleted
  | TopScorer (name : string)
  | TopThree (name : string)
  | WellDone (name : string) (rank : nat).

(** What a pass puts on the page. *)
Inductive Element :=
  | Title
  | Intro
  | TextInput
  | NameWarning
  | ProgressBar (q_index total : Z)
  | Caption (number total : Z)
  | Subheader (text : string)
  | Radio (options : list string)
  | TimerLine (color : string) (remaining : Z)
  | Success (m : Message)
  | Error (m : Message)
  | Notice (m : Message)
  | Balloons
  | Audio (file : string)
  | YourScore (score total : Z)
  | YourPercentage (p : Q)
  | LeaderRow (i : nat) (crown : bool) (color : string) (row : AttemptRecord)
  | NoScoresYet
  | Chart (rows : list AttemptRecord) (x_max : Z).

(** Everything that outlives a statement of the script. *)
Record World := mkWorld {
  session_state : SessionState;
  sheet : list AttemptRecord;           (* the shared Google sheet *)
  cache : option (list Question);       (* st.cache_data of load_questions *)
  screen : list Element;
}.

(** What one pass reads from outside.  [random.sample(questions,
    len(questions))] is whatever rearrangement the generator picks;
    nothing below depends on which. *)
Record Env := mkEnv {
  text_input : string;                  (* st.text_input(...) *)
  submit_answer : bool;                 (* st.button("Submit Answer") *)
  play_again : bool;                    (* st.button("Play Again") *)
  clock_first : Q;                      (* time.time() on line 151 *)
  clock_now : Q;                        (* time.time() on line 153 *)
  random_sample : list Question → list Question;
  random_color : nat → string;          (* the n-th draw of the pass *)
  read_csv : Exn + list Question;       (* pd.read_csv("questions.csv") *)
  auth_ok : bool;                       (* authenticate_google_sheets *)
  append_ok : bool;                     (* sheet.append_row *)
  get_all_ok : bool;                    (* sheet.get_all_records *)
}.

(** ** The monad of a render pass *)

(** How a piece of the script ends.  An exception, [return] and
    [st.experimental_rerun()] all abandon the rest of the pass; what was
    assigned before stays assigned. *)
Inductive Outcome (A : Type) :=
  | Value (a : A)
  | Returned
  | Rerun
  | Raised (e : Exn).
Arguments Value {A} a.
Arguments Returned {A}.
Arguments Rerun {A}.
Arguments Raised {A} e.

Definition M (A : Type) : Type := Env → World → World * Outcome A.

#[global] Instance M_ret : MRet M := λ A a _ w, (w, Value a).
#[global] Instance M_bind : MBind M := λ A B f m env w,
  match m env w with
  | (w', Value a) => f a env w'
  | (w', Returned) => (w', Returned)
  | (w', Rerun) => (w', Rerun)
  | (w', Raised e) => (w', Raised e)
  end.

Definition raise {A} (e : Exn) : M A := λ _ w, (w, Raised e).
Definition return_ {A} : M A := λ _ w, (w, Returned).
Definition experimental_rerun {A} : M A := λ _ w, (w, Rerun).
Definition ask : M Env := λ env w, (w, Value env).
Definition get_state : M SessionState := λ _ w, (w, Value (session_state w)).
Definition put_state (s : SessionState) : M unit := λ _ w,
  (mkWorld s (sheet w) (cache w) (screen w), Value ()).
Definition emit (e : Element) : M unit := λ _ w,
  (mkWorld (session_state w) (sheet w) (cache w) (screen w ++ [e]), Value ()).
Definition when (b : bool) (m : M unit) : M unit := if b then m else mret ().

(** [st.session_state.<name>]: AttributeError when the key is not set. *)
Definition attr {A} (field : SessionState → option A) : M A :=
  s ← get_state;
  match field s with
  | Some a => mret a
  | None => raise AttributeError
  end.

(** Assignments to and deletions of the named keys. *)
Definition set_player_name (v : option string) (s : SessionState) :=
  mkSession v (shuffled_questions s) (current_q s) (score s) (colors s)
    (answer_ s) (timer_ s) (timer_start_ s).
Definition set_shuffled_questions (v : option (list Question)) (s : SessionState) :=
  mkSession (player_name s) v (current_q s) (score s) (colors s)
    (answer_ s) (timer_ s) (timer_start_ s).
Definition set_current_q (v : option Z) (s : SessionState) :=
  mkSession (player_name s) (shuffled_questions s) v (score s) (colors s)
    (answer_ s) (timer_ s) (timer_start_ s).
Definition set_score (v : option Z) (s : SessionState) :=
  mkSession (player_name s) (shuffled_questions s) (current_q s) v (colors s)
    (answer_ s) (timer_ s) (timer_start_ s).
Definition set_colors (v : option (list string)) (s : SessionState) :=
  mkSession (player_name s) (shuffled_questions s) (current_q s) (score s) v
    (answer_ s) (timer_ s) (timer_start_ s).
Definition set_answer (i : Z) (v : option string) (s : SessionState) :=
  mkSession (player_name s) (shuffled_questions s) (current_q s) (score s)
    (colors s) (<[i:=v]> (answer_ s)) (timer_ s) (timer_start_ s).
Definition set_timer (i : Z) (v : Z) (s : SessionState) :=
  mkSession (player_name s) (shuffled_questions s) (current_q s) (score s)
    (colors s) (answer_ s) (<[i:=v]> (timer_ s)) (timer_start_ s).
Definition set_timer_start (i : Z) (v : Q) (s : SessionState) :=
  mkSession (player_name s) (shuffled_questions s) (current_q s) (score s)
    (colors s) (answer_ s) (timer_ s) (<[i:=v]> (timer_start_ s)).

Definition modify (f : SessionState → SessionState) : M unit :=
  s ← get_state; put_state (f s).

(** ** Google Sheets functions (lines 31-56) *)

(** [authenticate_google_sheets()]: succeeds or raises, as the
    environment has it. *)
Definition authenticate_google_sheets : M unit :=
  env ← ask;
  if auth_ok env then mret () else raise GSpreadException.

Definition append_row (r : AttemptRecord) : M unit := λ env w,
  if append_ok env
  then (mkWorld (session_state w) (sheet w ++ [r]) (cache w) (screen w), Value ())
  else (w, Raised GSpreadException).

Definition get_all_records : M (list AttemptRecord) := λ env w,
  if get_all_ok env then (w, Value (sheet w)) else (w, Raised GSpreadException).

Definition save_score (name : string) (score total : Z) : M unit :=
  authenticate_google_sheets;;
  percentage ← (if total =? 0 then raise ZeroDivisionError
                else mret (percentage_of score total));
  append_row (mkAttempt name score total percentage).

(** Both branches of [if data:] build the same frame of rows. *)
Definition load_leaderboard : M (list AttemptRecord) :=
  authenticate_google_sheets;;
  data ← get_all_records;
  mret data.

(** ** The chart (lines 61-81) *)

Definition show_leaderboard_chart (top_players : list AttemptRecord) : M unit :=
  match top_players with
  | [] => emit NoScoresYet
  | r :: rest =>
      emit (Chart (reverse top_players)
                  (foldr Z.max (Score r) (Score <$> rest) + 1))
  end.

(** ** The question bank (lines 86-89) *)

(** [@st.cache_data]: the file is read on the first successful call
    only.  The rows are handed on as read. *)
Definition load_questions : M (list Question) := λ env w,
  match cache w with
  | Some qs => (w, Value qs)
  | None =>
      match read_csv env with
      | inl e => (w, Raised e)
      | inr qs =>
          (mkWorld (session_state w) (sheet w) (Some qs) (screen w), Value qs)
      end
  end.

(** [s.split(";")] *)
Fixpoint split_on (c : ascii) (s : string) : list string :=
  match s with
  | EmptyString => [EmptyString]
  | String a s' =>
      if Ascii.eqb a c then EmptyString :: split_on c s'
      else match split_on c s' with
           | [] => [String a EmptyString]
           | w :: ws => String a w :: ws
           end
  end.

(** [l[i]] on a Python list: a negative index counts from the end. *)
Definition py_getitem {A} (l : list A) (i : Z) : option A :=
  let n := Z.of_nat (length l) in
  if 0 <=? i then l !! Z.to_nat i
  else if - n <=? i then l !! Z.to_nat (n + i)
  else None.

(** ** The quiz (lines 103-271) *)

Definition time_limit : Z := 15.

(** Line 154. *)
Definition remaining_time (elapsed : Z) : Z := Z.max (time_limit - elapsed) 0.

(** Lines 111-116. *)
Definition ask_player_name : M string :=
  s ← get_state;
  when (bool_decide (player_name s = None))
       (env ← ask; emit TextInput;;
        modify (set_player_name (Some (text_input env))));;
  name ← attr player_name;
  if bool_decide (name = EmptyString) then emit NameWarning;; return_
  else mret name.

(** Lines 119-124. *)
Definition shuffle_once (questions : list Question) : M unit :=
  s ← get_state;
  when (bool_decide (shuffled_questions s = None))
       (env ← ask;
        modify (set_shuffled_questions (Some (random_sample env questions)));;
        modify (set_current_q (Some 0));;
        modify (set_score (Some 0));;
        modify (set_colors (Some (random_color env <$> seq 0 5)))).

(** Lines 129-131; the quotient does not exist for an empty bank, and
    [st.progress] refuses a value outside [0.0, 1.0]. *)
Definition show_progress (q_index : Z) : M unit :=
  shuffled ← attr shuffled_questions;
  let n := Z.of_nat (length shuffled) in
  when (n =? 0) (raise ZeroDivisionError);;
  when ((q_index <? 0) || (n <? q_index)) (raise StreamlitAPIException);;
  emit (ProgressBar q_index n);;
  emit (Caption (q_index + 1) n).

(** Lines 163-168 and 179-184: the stored widget value against the
    answer; [miss] is the message of the other case. *)
Definition grade (q : Question) (q_index : Z) (miss : string → Message)
  : M unit :=
  s ← get_state;
  match answer_ s !! q_index with
  | None => raise KeyError
  | Some selected =>
      if bool_decide (selected = Some (q_answer q)) then
        emit (Success Correct);; emit Balloons;;
        sc ← attr score;
        modify (set_score (Some (sc + 1)))
      else emit (Error (miss (q_answer q)))
  end.

(** Lines 163-175 and 179-188: grade, save, advance, rerun. *)
Definition submit (q : Question) (q_index : Z) (miss : string → Message)
  : M unit :=
  grade q q_index miss;;
  name ← attr player_name;
  sc ← attr score;
  save_score name sc (q_index + 1);;
  cur ← attr current_q;
  modify (set_current_q (Some (cur + 1)));;
  experimental_rerun.

(** Lines 196-209 and 234-247: [enumerate(top5.itertuples(), 1)]. *)
Fixpoint leaderboard_rows (i : nat) (rows : list AttemptRecord) : M unit :=
  match rows with
  | [] => mret ()
  | row :: rest =>
      cs ← attr colors;
      env ← ask;
      let color := match cs !! (i - 1)%nat with
                   | Some c => c
                   | None => random_color env i
                   end in
      emit (LeaderRow i (bool_decide (i = 1%nat)) color row);;
      leaderboard_rows (S i) rest
  end.

(** Lines 192-213 and 230-250, the same code twice: read the sheet,
    sort it, show the first five rows and the chart.  The sorted frame
    is what the completion branch goes on to rank the player in. *)
Definition leaderboard_panel (chart_title : string) : M (list AttemptRecord) :=
  leaderboard ← load_leaderboard;
  let leaderboard := sort_values leaderboard in
  let top5 := head_rows 5 leaderboard in
  leaderboard_rows 1 top5;;
  emit (Subheader chart_title);;
  show_leaderboard_chart top5;;
  mret leaderboard.

(** Lines 136-213. *)
Definition question_pass (q_index : Z) : M unit :=
  shuffled ← attr shuffled_questions;
  match py_getitem shuffled q_index with
  | None => raise IndexError
  | Some q =>
      emit (Subheader (q_question q));;
      let options := split_on ";"%char (q_options q) in
      s ← get_state;
      when (bool_decide (answer_ s !! q_index = None))
           (modify (set_answer q_index None));;
      emit (Radio options);;
      s ← get_state;
      when (bool_decide (timer_ s !! q_index = None))
           (env ← ask;
            modify (set_timer q_index time_limit);;
            modify (set_timer_start q_index (clock_first env)));;
      env ← ask;
      s ← get_state;
      match timer_start_ s !! q_index with
      | None => raise KeyError
      | Some start =>
          let elapsed := py_int (clock_now env - start) in
          let remaining := remaining_time elapsed in
          let color := if remaining <=? 5 then "red" else "black" in
          emit (TimerLine color remaining);;
          when (remaining =? 0) (submit q q_index TimesUp);;
          when (submit_answer env) (submit q q_index Wrong);;
          emit (Subheader "Top 5 Players So Far");;
          leaderboard_panel "Top Players - Visual Ranking";;
          mret ()
      end
  end.

(** Lines 267-271: the keys that Play Again deletes. *)
Definition restart : M unit :=
  modify (set_shuffled_questions None);;
  modify (set_current_q None);;
  modify (set_score None);;
  modify (set_colors None);;
  experimental_rerun.

(** Lines 219-271. *)
Definition completed_pass : M unit :=
  emit Balloons;; emit (Audio "cheer.mp3");; emit (Success QuizCompleted);;
  shuffled ← attr shuffled_questions;
  let total := Z.of_nat (length shuffled) in
  sc ← attr score;
  when (total =? 0) (raise ZeroDivisionError);;
  emit (YourScore sc total);;
  emit (YourPercentage (percentage_of sc total));;
  leaderboard ← leaderboard_panel "Top Players - Final Visual Ranking";
  name ← attr player_name;
  match player_rank leaderboard name with
  | inl e => raise e
  | inr r =>
      (if bool_decide (r = 1%nat) then
         emit (Success (TopScorer name));; emit Balloons;;
         emit (Audio "winner.mp3")
       else if bool_decide (r ≤ 3)%nat then emit (Success (TopThree name))
       else emit (Notice (WellDone name r)));;
      env ← ask;
      when (play_again env) restart
  end.

(** Lines 126-271: the progress bar and the branch on the index. *)
Definition quiz_body : M unit :=
  q_index ← attr current_q;
  show_progress q_index;;
  shuffled ← attr shuffled_questions;
  if q_index <? Z.of_nat (length shuffled) then question_pass q_index
  else completed_pass.

(** Lines 103-271. *)
Definition run_quiz : M unit :=
  emit Title;; emit Intro;;
  ask_player_name;;
  questions ← load_questions;
  shuffle_once questions;;
  quiz_body.

(** One pass of the script: the page is drawn afresh. *)
Definition render (env : Env) (w : World) : World * Outcome unit :=
  run_quiz env (mkWorld (session_state w) (sheet w) (cache w) []).

(** The player picks an option of question [i]: the radio widget stores
    it under its key before the next pass starts. *)
Definition select_option (i : Z) (option : string) (w : World) : World :=
  mkWorld (set_answer i (Some option) (session_state w))
          (sheet w) (cache w) (screen w).

(** ** Sessions *)

(** Streamlit may drop the key of a widget that the last pass did not
    draw; the radio of a question that is no longer current is one. *)
Definition forget_option (i : Z) (w : World) : World :=
  mkWorld (mkSession (player_name (session_state w))
             (shuffled_questions (session_state w))
             (current_q (session_state w)) (score (session_state w))
             (colors (session_state w)) (delete i (answer_ (session_state w)))
             (timer_ (session_state w)) (timer_start_ (session_state w)))
          (sheet w) (cache w) (screen w).

(** What happens to a session: a pass of the script or, between two
    passes, the player picking an option or the framework dropping a
    stale widget key. *)
Inductive Event :=
  | Pass (env : Env)
  | Select (i : Z) (option : string)
  | Forget (i : Z).

Definition step (w : World) (ev : Event) : World :=
  match ev with
  | Pass env => (render env w).1
  | Select i o => select_option i o w
  | Forget i => forget_option i w
  end.

Definition run (w : World) (evs : list Event) : World := foldl step w evs.

(** A browser session starts with an empty [st.session_state]. *)
Definition fresh (w : World) : Prop := session_state w = empty_session.


(** The state [InProgress(i)] of section 4.2: player [name], with [sc]
    points so far, is at question [q], the one at index [i] of the
    order [qs]. *)
Definition InProgress (w : World) (name : string) (qs : list Question)
    (i sc : Z) (q : Question) : Prop :=
  player_name (session_state w) = Some name ∧ name ≠ EmptyString ∧
  shuffled_questions (session_state w) = Some qs ∧
  current_q (session_state w) = Some i ∧
  score (session_state w) = Some sc ∧
  0 ≤ i ∧ qs !! Z.to_nat i = Some q.

(** The state [Completed]: the index has run past the last of the
    [length qs > 0] questions. *)
Definition Completed (w : World) (name : string) (qs : list Question)
    (sc : Z) : Prop :=
  player_name (session_state w) = Some name ∧ name ≠ EmptyString ∧
  shuffled_questions (session_state w) = Some qs ∧
  current_q (session_state w) = Some (Z.of_nat (length qs)) ∧
  score (session_state w) = Some sc ∧
  qs ≠ [].

(** The top of the page of a started session. *)
Definition header (i : Z) (qs : list Question) : list Element :=
  [Title; Intro; ProgressBar i (Z.of_nat (length qs));
   Caption (i + 1) (Z.of_nat (length qs))].

(** What [load_questions] gives in this pass. *)
Definition bank (env : Env) (w : World) : Exn + list Question :=
  match cache w with
  | Some qs => inr qs
  | None => read_csv env
  end.

(** The value the radio widget of question [i] holds; Python's [None]
    until the player has picked an option. *)
Definition selected (s : SessionState) (i : Z) : option string :=
  default None (answer_ s !! i).

(** The start of the timer of question [i] as the pass sees it: the
    stored one, or the clock when the question is shown first. *)
Definition timer_started (env : Env) (s : SessionState) (i : Z) : option Q :=
  match timer_ s !! i with
  | None => Some (clock_first env)
  | Some _ => timer_start_ s !! i
  end.

(** Line 153. *)
Definition elapsed (env : Env) (start : Q) : Z := py_int (clock_now env - start).

(** The score after grading question [i]. *)
Definition graded (s : SessionState) (i : Z) (q : Question) (sc : Z) : Z :=
  if bool_decide (selected s i = Some (q_answer q)) then sc + 1 else sc.

(** The row a grading pass appends. *)
Definition attempt (name : string) (sc i : Z) : AttemptRecord :=
  mkAttempt name sc (i + 1) (percentage_of sc (i + 1)).


(** The same pass with the sheet refusing the append. *)
Definition write_fails (env : Env) : Env :=
  mkEnv (text_input env) (submit_answer env) (play_again env)
    (clock_first env) (clock_now env) (random_sample env) (random_color env)
    (read_csv env) (auth_ok env) false (get_all_ok env).

(** ** A worked session *)

Definition demo_bank : list Question :=
  [mkQuestion "Capital of France?" "Paris;Rome;Oslo" "Paris";
   mkQuestion "Largest ocean?" "Atlantic;Pacific" "Pacific"].

(** A pass at time [now] for a player who typed ann, with the two
    buttons and the sheet as given. *)
Definition demo_env (now : Q) (submit again append read : bool) : Env :=
  mkEnv "ann" submit again now now (λ l, l) (λ _, "rgb(200,200,200)")
    (inr demo_bank) true append read.

Definition tick (now : Q) : Event := Pass (demo_env now false false true true).

Definition demo_fresh : World := mkWorld empty_session [] None [].

(** Question 0 is on the page since time 100. *)
Definition demo_shown : World := run demo_fresh [tick 100].

(** ... and ann has picked the right option, without submitting. *)
Definition demo_picked : World := run demo_shown [Select 0 "Paris"].

(** She submits at 105, lets question 1 run out and is done at 121. *)
Definition demo_done : World :=
  run demo_picked
    [Pass (demo_env 105 true false true true); tick 105; tick 121].

(** A finished session whose rows the sheet no longer has. *)
Definition demo_lost : World :=
  mkWorld (session_state demo_done) [mkAttempt "bob" 2 2 100]
    (cache demo_done) [].

(** ** Closed forms for the further properties *)

(** [c.join(l)], the inverse of [split]. *)
Fixpoint join_with (c : ascii) (l : list string) : string :=
  match l with
  | [] => EmptyString
  | s :: rest =>
      match rest with
      | [] => s
      | _ => String.append s (String c (join_with c rest))
      end
  end.

(** [s.count(c)] *)
Fixpoint occurs (c : ascii) (s : string) : nat :=
  match s with
  | EmptyString => 0%nat
  | String a s' => ((if Ascii.eqb a c then 1 else 0) + occurs c s')%nat
  end.

(** The leaderboard row drawn for the record at position [k] (from 0)
    of the top five, with the session colours [cs]. *)
Definition drawn_row (env : Env) (cs : list string) (k : nat)
    (row : AttemptRecord) : Element :=
  LeaderRow (S k) (bool_decide (k = 0%nat))
    (default (random_color env (S k)) (cs !! k)) row.

(** The message for rank [k], lines 257-264. *)
Definition congratulation (name : string) (k : nat) : list Element :=
  if decide (k = 1%nat) then
    [Success (TopScorer name); Balloons; Audio "winner.mp3"]
  else if decide (k ≤ 3)%nat then [Success (TopThree name)]
  else [Notice (WellDone name k)].

(** What every state of a session satisfies, whatever the sheet does:
    [session_ok] without the bound of the score by the index, with the
    score not negative instead. *)
Definition session_shape (s : SessionState) : Prop :=
  match shuffled_questions s, current_q s, score s with
  | None, None, None => True
  | Some qs, Some i, Some sc =>
      (∃ name, player_name s = Some name ∧ name ≠ EmptyString) ∧
      0 ≤ i ≤ Z.of_nat (length qs) ∧ 0 ≤ sc
  | _, _, _ => False
  end.

(** What one pass may do to the name, the order and the sheet. *)
Definition pass_effect (env : Env) (w w' : World) : Prop :=
  (∀ name, player_name (session_state w) = Some name →
           player_name (session_state w') = Some name) ∧
  (∀ qs, shuffled_questions (session_state w) = Some qs →
         shuffled_questions (session_state w') = Some qs ∨
         shuffled_questions (session_state w') = None ∧
         current_q (session_state w) = Some (Z.of_nat (length qs)) ∧
         play_again env = true) ∧
  (sheet w' = sheet w ∨
   ∃ name sc i,
     sheet w' = sheet w ++ [attempt name sc i] ∧ 0 ≤ i ∧
     player_name (session_state w') = Some name ∧
     current_q (session_state w') = Some (i + 1) ∧
     score (session_state w') = Some sc).




(** A computation keeps the property [I] of worlds, however it ends. *)
Definition keeps {A} (I : World → Prop) (m : M A) : Prop :=
  ∀ env w, I w → I (m env w).1.

(** What is still there of [w0] in [w]: the cached bank, the timer of
    every question that had one, with its start, and the value of every
    radio widget that had one. *)
Definition keys_kept (w0 w : World) : Prop :=
  (∀ bk, cache w0 = Some bk → cache w = Some bk) ∧
  (∀ i v, timer_ (session_state w0) !! i = Some v →
          timer_ (session_state w) !! i = Some v ∧
          timer_start_ (session_state w) !! i =
            timer_start_ (session_state w0) !! i) ∧
  (∀ i v, answer_ (session_state w0) !! i = Some v →
          answer_ (session_state w) !! i = Some v).

(** Every timer has its start. *)
Definition timers_paired (s : SessionState) : Prop :=
  ∀ j, is_Some (timer_ s !! j) → is_Some (timer_start_ s !! j).

(** What every state of a session satisfies as far as the keys go that
    the script reads: the order, the index, the score and the colours
    are set together and deleted together, a set index lies within the
    order and comes with a name, and every timer has its start. *)
Definition session_sound (s : SessionState) : Prop :=
  timers_paired s ∧
  match shuffled_questions s, current_q s, score s, colors s with
  | None, None, None, None => True
  | Some qs, Some i, Some _, Some _ =>
      (∃ name, player_name s = Some name ∧ name ≠ EmptyString) ∧
      0 ≤ i ≤ Z.of_nat (length qs)
  | _, _, _, _ => False
  end.

(** The exceptions a pass is expected to end in, each with its cause:
    the reader's own while no bank is cached, a Google Sheets failure,
    the division by the length of an empty order, and the rank lookup
    of a finished player whom no row of the sheet names. *)
Definition expected (env : Env) (w' : World) (e : Exn) : Prop :=
  (cache w' = None ∧ read_csv env = inl e) ∨
  (e = GSpreadException ∧
   auth_ok env && append_ok env && get_all_ok env = false) ∨
  (e = ZeroDivisionError ∧ shuffled_questions (session_state w') = Some []) ∨
  (e = IndexError ∧
   ∃ name qs,
     player_name (session_state w') = Some name ∧
     shuffled_questions (session_state w') = Some qs ∧
     current_q (session_state w') = Some (Z.of_nat (length qs)) ∧
     ∀ r, r ∈ sheet w' → Name r ≠ name).

(** A computation that has ended did so well: with a value that
    satisfies [Q], or leaving a sound session state, and then with an
    expected exception if with one. *)
Definition ends_well {A} (Q : A → World → Prop) (env : Env)
    (r : World * Outcome A) : Prop :=
  match r with
  | (w', Value a) => Q a w'
  | (w', Raised e) => session_sound (session_state w') ∧ expected env w' e
  | (w', _) => session_sound (session_state w')
  end.

(** The triple of [m]: from a world that satisfies [P] it ends well. *)
Definition triple {A} (P : World → Prop) (m : M A)
    (Q : A → World → Prop) : Prop :=
  ∀ env w, P w → ends_well Q env (m env w).

(** A session that has its order: [name] is at index [i] of [qs]. *)
Definition Started (name : string) (qs : list Question) (i : Z)
    (w : World) : Prop :=
  player_name (session_state w) = Some name ∧ name ≠ EmptyString ∧
  shuffled_questions (session_state w) = Some qs ∧
  current_q (session_state w) = Some i ∧ 0 ≤ i ≤ Z.of_nat (length qs) ∧
  is_Some (score (session_state w)) ∧ is_Some (colors (session_state w)) ∧
  timers_paired (session_state w).

(** ... and question [i], which is one of the order, has the value of
    its widget and the start of its timer. *)
Definition Ready (name : string) (qs : list Question) (i : Z)
    (w : World) : Prop :=
  Started name qs i w ∧ i < Z.of_nat (length qs) ∧
  is_Some (answer_ (session_state w) !! i) ∧
  is_Some (timer_start_ (session_state w) !! i).

(** * Properties *)

(** ** Numbers *)

Example percentage_third : percentage_of 1 3 = (3333 # 100)%Q.
Proof. reflexivity. Qed.

Example percentage_tie : percentage_of 1 32 = (312 # 100)%Q.
Proof. reflexivity. Qed.

(** ** Ranking *)

Section ranking.
Implicit Types (a b c x y r : AttemptRecord) (l : list AttemptRecord).

Lemma key_ge_total a b : key_ge a b = false → key_ge b a = true.
Proof.
  unfold key_ge. intros H.
  apply orb_false_elim in H as [Hlt Heq].
  apply Z.ltb_ge in Hlt.
  destruct (Z.ltb_spec (Score a) (Score b)) as [|Hge]; [done|].
  assert (Score a = Score b) as E by lia.
  rewrite E, Z.eqb_refl in Heq |- *. simpl in *.
  apply Qle_bool_iff. apply Qlt_le_weak, Qnot_le_lt.
  intros Hle. apply Qle_bool_iff in Hle. congruence.
Qed.

Lemma key_ge_trans a b c : before a b → before b c → before a c.
Proof.
  unfold before, key_ge. intros Hab Hbc.
  apply orb_true_iff in Hab as [Hab|Hab], Hbc as [Hbc|Hbc];
    apply orb_true_iff;
    repeat match goal with
    | H : (_ <? _) = true |- _ => apply Z.ltb_lt in H
    | H : _ && _ = true |- _ => apply andb_true_iff in H as [? ?]
    | H : (_ =? _) = true |- _ => apply Z.eqb_eq in H
    | H : Qle_bool _ _ = true |- _ => apply Qle_bool_iff in H
    end.
  - left. apply Z.ltb_lt. lia.
  - left. apply Z.ltb_lt. lia.
  - left. apply Z.ltb_lt. lia.
  - right. apply andb_true_iff. split; [apply Z.eqb_eq; lia|].
    apply Qle_bool_iff. eapply Qle_trans; eauto.
Qed.

Lemma key_eq_ge a b : key_eq a b = true → key_ge a b = true.
Proof.
  unfold key_eq, key_ge. intros [Hs Hp]%andb_true_iff.
  rewrite Hs. simpl. apply orb_true_iff. right.
  apply Qle_bool_iff. apply Qeq_bool_iff in Hp. rewrite Hp. apply Qle_refl.
Qed.

Lemma key_eq_trans_l r x y :
  key_eq r x = true → key_eq r y = true → key_eq x y = true.
Proof.
  unfold key_eq.
  intros [Hs1 Hp1]%andb_true_iff [Hs2 Hp2]%andb_true_iff.
  apply Z.eqb_eq in Hs1, Hs2. apply Qeq_bool_iff in Hp1, Hp2.
  apply andb_true_iff. split; [apply Z.eqb_eq; lia|].
  apply Qeq_bool_iff. rewrite <- Hp1. done.
Qed.

Lemma insert_row_perm x l : insert_row x l ≡ₚ x :: l.
Proof.
  induction l as [|y l IH]; simpl; [done|].
  destruct (key_ge x y); [done|].
  rewrite IH. apply Permutation_swap.
Qed.

Lemma sort_values_perm l : sort_values l ≡ₚ l.
Proof.
  induction l as [|x l IH]; simpl; [done|].
  by rewrite insert_row_perm, IH.
Qed.

Lemma insert_row_sorted x l :
  StronglySorted before l → StronglySorted before (insert_row x l).
Proof.
  induction 1 as [|y l Hl IH Hy]; simpl.
  - repeat constructor.
  - destruct (key_ge x y) eqn:E.
    + constructor; [by constructor|].
      constructor; [done|].
      eapply Forall_impl; [exact Hy|].
      intros z Hz. by apply key_ge_trans with y.
    + constructor; [done|].
      rewrite insert_row_perm. constructor; [|done].
      by apply key_ge_total.
Qed.

Lemma sort_values_sorted l : StronglySorted before (sort_values l).
Proof.
  induction l as [|x l IH]; simpl; [constructor|].
  by apply insert_row_sorted.
Qed.

(** Rows that tie on both keys keep the order they were read in. *)
Lemma insert_row_stable r x l :
  List.filter (key_eq r) (insert_row x l) = List.filter (key_eq r) (x :: l).
Proof.
  induction l as [|y l IH]; [done|].
  cbn [insert_row]. destruct (key_ge x y) eqn:E; [done|].
  cbn [List.filter] in *. rewrite IH.
  destruct (key_eq r x) eqn:Ex, (key_eq r y) eqn:Ey; try done.
  pose proof (key_eq_ge _ _ (key_eq_trans_l _ _ _ Ex Ey)). congruence.
Qed.

Lemma sort_values_stable r l :
  List.filter (key_eq r) (sort_values l) = List.filter (key_eq r) l.
Proof.
  induction l as [|x l IH]; [done|].
  cbn [sort_values]. rewrite insert_row_stable.
  cbn [List.filter]. by rewrite IH.
Qed.

Lemma sort_values_length l : length (sort_values l) = length l.
Proof. apply Permutation_length, sort_values_perm. Qed.

Lemma index_where_head player start l :
  match index_where (name_is player) start l with
  | [] => ∀ r, r ∈ l → Name r ≠ player
  | i :: _ => ∃ j, i = (start + j)%nat ∧ first_named player l (S j)
  end.
Proof.
  revert start. induction l as [|x l IH]; intros start; simpl.
  - intros r Hr. by apply elem_of_nil in Hr.
  - unfold name_is at 1. case_bool_decide as Hx.
    + exists 0%nat. split; [lia|]. split; [lia|]. split.
      * exists x. done.
      * intros j r' Hj. simpl in Hj. lia.
    + specialize (IH (S start)).
      destruct (index_where (name_is player) (S start) l) as [|i rest].
      * intros r [->|Hr]%elem_of_cons; auto.
      * destruct IH as (j & -> & _ & (r & Hr & Hn) & Hfirst).
        exists (S j). split; [lia|]. split; [lia|]. split.
        -- exists r. simpl in *. by rewrite Nat.sub_0_r in *.
        -- intros [|j'] r' Hj' Hl; simpl in *.
           ++ by injection Hl as <-.
           ++ apply (Hfirst j' r'); [lia|done].
Qed.

Lemma first_named_unique player l k k' :
  first_named player l k → first_named player l k' → k = k'.
Proof.
  intros (H1 & (r & Hr & Hn) & Hf) (H1' & (r' & Hr' & Hn') & Hf').
  destruct (Nat.lt_trichotomy k k') as [Hlt|[->|Hlt]]; [|done|].
  - exfalso. apply (Hf' (k - 1)%nat r); [lia|done|done].
  - exfalso. apply (Hf (k' - 1)%nat r'); [lia|done|done].
Qed.

Lemma player_rank_first player l k :
  player_rank l player = inr k ↔ first_named player l k.
Proof.
  unfold player_rank.
  pose proof (index_where_head player 0 l) as H.
  destruct (index_where (name_is player) 0 l) as [|i rest].
  - split; [done|].
    intros (_ & (r & Hr & Hn) & _).
    exfalso. apply (H r); [|done]. by eapply list_elem_of_lookup_2.
  - destruct H as (j & -> & Hj). simpl.
    replace (j + 1)%nat with (S j) by lia. split.
    + by intros [= <-].
    + intros Hk. f_equal. by eapply first_named_unique.
Qed.

Lemma player_rank_missing player l :
  player_rank l player = inl IndexError ↔ ∀ r, r ∈ l → Name r ≠ player.
Proof.
  unfold player_rank.
  pose proof (index_where_head player 0 l) as H.
  destruct (index_where (name_is player) 0 l) as [|i rest].
  - done.
  - split; [done|]. intros Hno.
    destruct H as (j & _ & _ & (r & Hr & Hn) & _).
    exfalso. apply (Hno r); [|done]. by eapply list_elem_of_lookup_2.
Qed.
End ranking.

(** ** Running the script by hand *)

Create HintDb monad.
#[local] Hint Unfold mbind M_bind mret M_ret attr get_state put_state modify
  emit when raise return_ experimental_rerun ask : monad.

Ltac monad_simpl := repeat (progress (autounfold with monad; simpl)).

Ltac open_world w :=
  destruct w as [[?pn ?sq ?cq ?sco ?cl ?an ?tm ?ts] ?sh ?ca ?scr]; simpl in *.

Section blocks.
Implicit Types (env : Env) (w : World) (s : SessionState).

(** Drawing the rows touches nothing but the page, which it adds to;
    it can only stop on a missing [colors] key. *)
Lemma leaderboard_rows_frame rows : ∀ i env w,
  session_state (leaderboard_rows i rows env w).1 = session_state w ∧
  sheet (leaderboard_rows i rows env w).1 = sheet w ∧
  cache (leaderboard_rows i rows env w).1 = cache w ∧
  (∃ more, screen (leaderboard_rows i rows env w).1 = screen w ++ more) ∧
  ((leaderboard_rows i rows env w).2 = Value () ∨
   (leaderboard_rows i rows env w).2 = Raised AttributeError).
Proof.
  induction rows as [|row rows IH]; intros i env w.
  - simpl. repeat split; auto. exists []. by rewrite app_nil_r.
  - cbn [leaderboard_rows]. open_world w. destruct cl as [cs|].
    + monad_simpl.
      match goal with |- context [leaderboard_rows _ _ _ ?w0] =>
        specialize (IH (S i) env w0);
        destruct (leaderboard_rows (S i) rows env w0) as [w' o] end.
      simpl in *. destruct IH as (? & ? & ? & [more Hm] & Ho).
      assert (∃ more, screen w' = scr ++ more) as Hscr.
      { rewrite Hm, <- app_assoc. eauto. }
      destruct Ho as [-> | ->]; repeat split; auto.
    + monad_simpl. repeat split; auto. exists []. by rewrite app_nil_r.
Qed.

Lemma leaderboard_rows_value rows : ∀ i env w cs,
  colors (session_state w) = Some cs →
  (leaderboard_rows i rows env w).2 = Value ().
Proof.
  induction rows as [|row rows IH]; intros i env w cs Hc; [done|].
  cbn [leaderboard_rows]. open_world w. subst. monad_simpl.
  match goal with |- context [leaderboard_rows _ _ _ ?w0] =>
    specialize (IH (S i) env w0 cs eq_refl);
    destruct (leaderboard_rows (S i) rows env w0) as [w' []] end;
  simpl in *; done.
Qed.

Lemma show_leaderboard_chart_frame rows env w :
  session_state (show_leaderboard_chart rows env w).1 = session_state w ∧
  sheet (show_leaderboard_chart rows env w).1 = sheet w ∧
  cache (show_leaderboard_chart rows env w).1 = cache w ∧
  (∃ more, screen (show_leaderboard_chart rows env w).1 = screen w ++ more) ∧
  (show_leaderboard_chart rows env w).2 = Value ().
Proof. destruct rows; simpl; eauto 10. Qed.

(** The panel reads the sheet and draws; it leaves the session, the
    sheet and the cache as they were.  A failed read ends the pass
    there and then. *)
Lemma leaderboard_panel_frame title env w :
  session_state (leaderboard_panel title env w).1 = session_state w ∧
  sheet (leaderboard_panel title env w).1 = sheet w ∧
  cache (leaderboard_panel title env w).1 = cache w ∧
  (∃ more, screen (leaderboard_panel title env w).1 = screen w ++ more) ∧
  (leaderboard_panel title env w).2 ≠ Rerun ∧
  (leaderboard_panel title env w).2 ≠ Returned.
Proof.
  assert (∃ more, screen w = screen w ++ more) as Hnil.
  { exists []. by rewrite app_nil_r. }
  unfold leaderboard_panel, load_leaderboard, authenticate_google_sheets,
    get_all_records.
  monad_simpl.
  destruct (auth_ok env); monad_simpl; [|done].
  destruct (get_all_ok env); monad_simpl; [|done].
  match goal with |- context [leaderboard_rows ?i ?r ?e ?w0] =>
    pose proof (leaderboard_rows_frame r i e w0)
      as (Hs & Hsh & Hc & [m1 Hm1] & Ho);
    destruct (leaderboard_rows i r e w0) as [w1 o1] end.
  simpl in *.
  destruct Ho as [-> | ->]; monad_simpl; [|repeat split; eauto; congruence].
  match goal with |- context [show_leaderboard_chart ?r ?e ?w0] =>
    pose proof (show_leaderboard_chart_frame r e w0)
      as (Hs' & Hsh' & Hc' & [m2 Hm2] & Ho');
    destruct (show_leaderboard_chart r e w0) as [w2 o2] end.
  simpl in *. subst o2. simpl. repeat split; try congruence.
  rewrite Hm2, Hm1, <- !app_assoc. eauto.
Qed.

Lemma leaderboard_panel_down title env w :
  auth_ok env && get_all_ok env = false →
  leaderboard_panel title env w = (w, Raised GSpreadException).
Proof.
  unfold leaderboard_panel, load_leaderboard, authenticate_google_sheets,
    get_all_records.
  intros H. monad_simpl.
  destruct (auth_ok env); monad_simpl; [|done].
  destruct (get_all_ok env); monad_simpl; done.
Qed.

Lemma leaderboard_panel_up title env w cs :
  auth_ok env = true → get_all_ok env = true →
  colors (session_state w) = Some cs →
  ∃ w', leaderboard_panel title env w = (w', Value (sort_values (sheet w))) ∧
        session_state w' = session_state w ∧ sheet w' = sheet w ∧
        cache w' = cache w.
Proof.
  intros Ha Hg Hc.
  unfold leaderboard_panel, load_leaderboard, authenticate_google_sheets,
    get_all_records.
  monad_simpl. rewrite Ha. monad_simpl. rewrite Hg. monad_simpl.
  match goal with |- context [leaderboard_rows ?i ?r ?e ?w0] =>
    pose proof (leaderboard_rows_frame r i e w0) as (Hs & Hsh & Hca & _ & _);
    pose proof (leaderboard_rows_value r i e w0 cs Hc) as Ho;
    destruct (leaderboard_rows i r e w0) as [w1 o1] end.
  simpl in *. subst o1. monad_simpl.
  match goal with |- context [show_leaderboard_chart ?r ?e ?w0] =>
    pose proof (show_leaderboard_chart_frame r e w0)
      as (Hs' & Hsh' & Hc' & _ & Ho');
    destruct (show_leaderboard_chart r e w0) as [w2 o2] end.
  simpl in *. subst o2. simpl. eexists; split; [done|].
  repeat split; congruence.
Qed.
(** Grade, save, advance: what [submit] leaves behind in each of its
    four ways out. *)
Lemma submit_run q i miss env name sq cur sc cl an tm ts sh ca scr a :
  an !! i = Some a →
  let s := mkSession (Some name) sq (Some cur) (Some sc) cl an tm ts in
  let sc' := if bool_decide (a = Some (q_answer q)) then sc + 1 else sc in
  let s1 := set_score (Some sc') s in
  ∃ more,
    submit q i miss env (mkWorld s sh ca scr) =
      if auth_ok env then
        if i + 1 =? 0
        then (mkWorld s1 sh ca (scr ++ more), Raised ZeroDivisionError)
        else if append_ok env then
          (mkWorld (set_current_q (Some (cur + 1)) s1)
             (sh ++ [attempt name sc' i]) ca (scr ++ more), Rerun)
        else (mkWorld s1 sh ca (scr ++ more), Raised GSpreadException)
      else (mkWorld s1 sh ca (scr ++ more), Raised GSpreadException).
Proof.
  intros Ha. unfold submit, grade, save_score, authenticate_google_sheets,
    append_row, attempt.
  monad_simpl. rewrite Ha.
  case_bool_decide; monad_simpl;
    [exists [Success Correct; Balloons]|exists [Error (miss (q_answer q))]];
    rewrite <- ?app_assoc; simpl;
    (destruct (auth_ok env); monad_simpl; [|done]);
    (destruct (i + 1 =? 0); monad_simpl; [done|]);
    (destruct (append_ok env); monad_simpl; done).
Qed.

(** Up to the branch on the index, a pass of a started session only
    loads the bank and draws the progress bar. *)
Lemma render_bank_missing env w name e :
  player_name (session_state w) = Some name → name ≠ EmptyString →
  bank env w = inl e →
  render env w =
    (mkWorld (session_state w) (sheet w) (cache w) [Title; Intro], Raised e).
Proof.
  intros Hn Hne Hb. open_world w. subst.
  unfold bank in Hb. simpl in Hb. destruct ca; [done|].
  unfold render, run_quiz, ask_player_name, load_questions.
  monad_simpl. rewrite (bool_decide_eq_false_2 (name = EmptyString)) by done.
  monad_simpl. by rewrite Hb.
Qed.

Lemma render_started env w name qs i sc bk :
  player_name (session_state w) = Some name → name ≠ EmptyString →
  shuffled_questions (session_state w) = Some qs →
  current_q (session_state w) = Some i →
  score (session_state w) = Some sc →
  0 ≤ i ≤ Z.of_nat (length qs) → qs ≠ [] →
  bank env w = inr bk →
  render env w =
    (if i <? Z.of_nat (length qs) then question_pass i else completed_pass)
      env (mkWorld (session_state w) (sheet w) (Some bk) (header i qs)).
Proof.
  intros Hn Hne Hq Hi Hs Hr Hnil Hb. open_world w. subst.
  assert ((Z.of_nat (length qs) =? 0) = false) as Hn0.
  { apply Z.eqb_neq. destruct qs; [done|]. simpl. lia. }
  assert ((i <? 0) = false) as Hi1 by (apply Z.ltb_ge; lia).
  assert ((Z.of_nat (length qs) <? i) = false) as Hi2 by (apply Z.ltb_ge; lia).
  unfold render, run_quiz, quiz_body, ask_player_name, load_questions,
    shuffle_once, show_progress, header.
  monad_simpl. rewrite (bool_decide_eq_false_2 (name = EmptyString)) by done.
  unfold bank in Hb. simpl in Hb.
  destruct ca as [qs0|]; [injection Hb as ->|rewrite Hb]; monad_simpl;
    rewrite Hn0, Hi1, Hi2; monad_simpl; done.
Qed.
Lemma in_progress_bounds w name qs i sc q :
  InProgress w name qs i sc q →
  0 ≤ i ≤ Z.of_nat (length qs) ∧ qs ≠ [] ∧ (i <? Z.of_nat (length qs)) = true.
Proof.
  intros (_ & _ & _ & _ & _ & Hi & Hq).
  pose proof (lookup_lt_Some _ _ _ Hq) as Hlt.
  split; [lia|]. split; [by destruct qs|]. apply Z.ltb_lt. lia.
Qed.

(** The question branch when the timer has a start: the page shows
    the time left; if time is up or Submit was pressed the question
    is graded and, the sheet permitting, the index advanced;
    otherwise the branch only draws. *)
Lemma question_pass_run env w name qs i sc q t0 :
  InProgress w name qs i sc q →
  timer_started env (session_state w) i = Some t0 →
  let r := remaining_time (elapsed env t0) in
  let res := question_pass i env w in
  let s' := session_state res.1 in
  let shown :=
    screen w ++
    [Subheader (q_question q); Radio (split_on ";"%char (q_options q));
     TimerLine (if r <=? 5 then "red" else "black") r] in
  (player_name s' = Some name ∧ shuffled_questions s' = Some qs ∧
   timer_start_ s' !! i = Some t0 ∧
   timer_ s' !! i = Some (default time_limit (timer_ (session_state w) !! i)) ∧
   selected s' i = selected (session_state w) i ∧ cache res.1 = cache w) ∧
  (∃ rest, screen res.1 = shown ++ rest) ∧
  if (r =? 0) || submit_answer env then
    score s' = Some (graded (session_state w) i q sc) ∧
    if auth_ok env && append_ok env then
      res.2 = Rerun ∧ current_q s' = Some (i + 1) ∧
      sheet res.1 =
        sheet w ++ [attempt name (graded (session_state w) i q sc) i]
    else
      res.2 = Raised GSpreadException ∧ current_q s' = Some i ∧
      sheet res.1 = sheet w
  else
    score s' = Some sc ∧ current_q s' = Some i ∧ sheet res.1 = sheet w ∧
    res.2 ≠ Rerun ∧
    (auth_ok env && get_all_ok env = false →
     res.2 = Raised GSpreadException ∧
     screen res.1 = shown ++ [Subheader "Top 5 Players So Far"]).
Proof.
  intros Hip Ht r res s' shown.
  destruct Hip as (Hn & Hne & Hsq & Hcq & Hsc & Hi & Hq).
  subst s' res shown.
  open_world w. subst.
  assert ((0 <=? i) = true) as Hi3 by (apply Z.leb_le; lia).
  assert ((i + 1 =? 0) = false) as Hz by (apply Z.eqb_neq; lia).
  match goal with |- context [question_pass ?j ?e ?w0] =>
    destruct (question_pass j e w0) as [w' o] eqn:E end.
  revert E.
  unfold question_pass, py_getitem, timer_started, graded, selected in *.
  simpl in Ht.
  monad_simpl. rewrite Hi3, Hq. monad_simpl.
  destruct (an !! i) as [a|] eqn:Ean;
    (case_bool_decide as Hd; [try done|try done]); clear Hd; monad_simpl;
    (destruct (tm !! i) as [t|] eqn:Etm;
     (case_bool_decide as Hd; [try done|try done]); clear Hd; monad_simpl;
     [rewrite Ht|injection Ht as Ht; rewrite lookup_insert_eq, ?Ht]);
    fold (elapsed env t0); fold r.
  all: unfold set_answer, set_timer, set_timer_start; simpl.
  all: destruct (r =? 0) eqn:Er; cbn [orb];
    [|destruct (submit_answer env) eqn:Esub].
  all: repeat match goal with
    | |- context [submit ?q ?j ?m ?e
           (mkWorld (mkSession (Some ?n) ?sq (Some ?c) (Some ?x) ?l
                       ?an' ?tm' ?ts') ?sh' ?ca' ?scr')] =>
        let H := fresh in
        assert (∃ a, an' !! j = Some a ∧ default None (an !! i) = a)
          as (a' & H & Hdef);
        [rewrite ?lookup_insert_eq, ?Ean; eauto|];
        destruct (submit_run q j m e n sq c x l an' tm' ts' sh' ca' scr' a' H)
          as [? ->];
        rewrite Hz; simpl in Hdef; subst a'
    | |- context [leaderboard_panel ?t ?e ?w0] =>
        pose proof (leaderboard_panel_frame t e w0)
          as (Hs & Hsh & Hc & [m Hm] & Ho1 & Ho2);
        pose proof (leaderboard_panel_down t e w0) as Hdown;
        destruct (leaderboard_panel t e w0) as [w1 o1]; simpl in *
    end.
  all: unfold set_current_q, set_score; simpl.
  all: try (destruct (auth_ok env), (append_ok env); simpl;
            intros [= <- <-]; simpl;
            rewrite ?lookup_insert_eq, ?Ean, ?Etm; simpl;
            repeat split; try done;
            eexists; rewrite <- ?app_assoc; simpl; reflexivity).
  all: intros Hres;
    assert (w' = w1 ∧ o ≠ Rerun ∧
            (auth_ok env && get_all_ok env = false
             → o = Raised GSpreadException ∧
               screen w1 =
                 (((scr ++ [Subheader (q_question q)]) ++
                   [Radio (split_on ";"%char (q_options q))]) ++
                  [TimerLine (if r <=? 5 then "red" else "black") r]) ++
                 [Subheader "Top 5 Players So Far"]))
      as (-> & ? & Hd');
    [destruct o1; try done; injection Hres as <- <-; (split; [done|]);
     (split; [done|]); intros Hd; specialize (Hdown Hd);
     inversion Hdown; subst; simpl; done|];
    rewrite Hs; simpl; rewrite ?lookup_insert_eq, ?Ean, ?Etm; simpl;
    repeat split; try done;
    try (rewrite Hm; eexists; rewrite <- ?app_assoc; simpl; reflexivity);
    match goal with
    | H0 : auth_ok _ && get_all_ok _ = false |- _ =>
        destruct (Hd' H0) as [Ho Hscr]; try done;
        rewrite Hscr, <- ?app_assoc; done
    end.
Qed.

(** A timer key without its start (no pass leaves such a pair): the
    branch stops on the lookup before it grades anything. *)
Lemma question_pass_no_start env w name qs i sc q :
  InProgress w name qs i sc q →
  timer_started env (session_state w) i = None →
  (question_pass i env w).2 = Raised KeyError ∧
  player_name (session_state (question_pass i env w).1) = Some name ∧
  shuffled_questions (session_state (question_pass i env w).1) = Some qs ∧
  current_q (session_state (question_pass i env w).1) = Some i ∧
  score (session_state (question_pass i env w).1) = Some sc ∧
  sheet (question_pass i env w).1 = sheet w.
Proof.
  intros Hip Ht.
  destruct Hip as (Hn & Hne & Hsq & Hcq & Hsc & Hi & Hq).
  open_world w. subst.
  assert ((0 <=? i) = true) as Hi3 by (apply Z.leb_le; lia).
  unfold question_pass, py_getitem, timer_started in *. simpl in Ht.
  monad_simpl. rewrite Hi3, Hq. monad_simpl.
  destruct (tm !! i) as [t|] eqn:Etm; [|done].
  destruct (an !! i) as [a|] eqn:Ean;
    (case_bool_decide as Hd; [try done|try done]); clear Hd; monad_simpl;
    rewrite Etm;
    (case_bool_decide as Hd; [try done|try done]); clear Hd; monad_simpl;
    rewrite Ht; done.
Qed.
Lemma leaderboard_panel_value title env w l :
  (leaderboard_panel title env w).2 = Value l →
  l = sort_values (sheet w) ∧ auth_ok env = true ∧ get_all_ok env = true.
Proof.
  unfold leaderboard_panel, load_leaderboard, authenticate_google_sheets,
    get_all_records.
  monad_simpl.
  destruct (auth_ok env); monad_simpl; [|done].
  destruct (get_all_ok env); monad_simpl; [|done].
  match goal with |- context [leaderboard_rows ?i ?r ?e ?w0] =>
    destruct (leaderboard_rows i r e w0) as [w1 []] end; simpl; try done.
  match goal with |- context [show_leaderboard_chart ?r ?e ?w0] =>
    destruct (show_leaderboard_chart r e w0) as [w2 []] end; simpl; try done.
  by intros [= <-].
Qed.

(** The completion branch: it reads and draws the leaderboard, ranks
    the player and, on Play Again, deletes four keys.  Nothing else
    of the session, and nothing of the sheet, changes. *)
Lemma completed_pass_run env w name qs sc :
  Completed w name qs sc →
  let s := session_state w in
  let res := completed_pass env w in
  let s' := session_state res.1 in
  (sheet res.1 = sheet w ∧ cache res.1 = cache w ∧
   player_name s' = player_name s ∧ answer_ s' = answer_ s ∧
   timer_ s' = timer_ s ∧ timer_start_ s' = timer_start_ s) ∧
  ((res.2 = Rerun ∧ play_again env = true ∧
    shuffled_questions s' = None ∧ current_q s' = None ∧
    score s' = None ∧ colors s' = None) ∨
   (res.2 ≠ Rerun ∧ s' = s)) ∧
  (auth_ok env && get_all_ok env = false → res.2 = Raised GSpreadException) ∧
  (auth_ok env = true → get_all_ok env = true → is_Some (colors s) →
   match player_rank (sort_values (sheet w)) name with
   | inl e => res.2 = Raised e
   | inr _ => res.2 = if play_again env then Rerun else Value ()
   end).
Proof.
  intros (Hn & Hne & Hsq & Hcq & Hsc & Hnil) s res s'. subst s s' res.
  assert ((Z.of_nat (length qs) =? 0) = false) as Hn0.
  { apply Z.eqb_neq. destruct qs; [done|]. simpl. lia. }
  open_world w. subst.
  unfold completed_pass. monad_simpl. rewrite Hn0. monad_simpl.
  match goal with |- context [leaderboard_panel ?t ?e ?w0] =>
    pose proof (leaderboard_panel_frame t e w0)
      as (Hs & Hsh & Hc & _ & Ho1 & Ho2);
    pose proof (leaderboard_panel_down t e w0) as Hdown;
    pose proof (leaderboard_panel_value t e w0) as Hval;
    pose proof (λ cs, leaderboard_panel_up t e w0 cs) as Hup;
    destruct (leaderboard_panel t e w0) as [w1 o1]; simpl in *
  end.
  destruct w1 as [s1 sh1 ca1 scr1]. simpl in *. subst s1 sh1 ca1.
  assert (∀ cs, auth_ok env = true → get_all_ok env = true → cl = Some cs →
          o1 = Value (sort_values sh)) as Hup'.
  { intros cs Ha Hg ->. destruct (Hup cs Ha Hg eq_refl) as (w' & [= _ ->] & _).
    done. }
  clear Hup.
  destruct o1 as [l| | |e]; [|done|done|]; monad_simpl.
  - destruct (Hval l eq_refl) as (-> & Ha & Hg). rewrite Ha, Hg.
    destruct (player_rank (sort_values sh) name) as [e|k]; monad_simpl.
    + split; [done|]. split; [by right|]. done.
    + unfold restart.
      repeat case_bool_decide; monad_simpl;
        (destruct (play_again env); monad_simpl;
         (split; [done|]); (split; [by (left + right)|]); done).
  - split; [done|]. split; [by right|]. split.
    + intros Hd. specialize (Hdown Hd). congruence.
    + intros Ha Hg [cs ->]. specialize (Hup' cs Ha Hg eq_refl). done.
Qed.
(** [question_pass_run] for a whole pass. *)
Lemma render_question env w name qs i sc q bk t0 :
  InProgress w name qs i sc q →
  bank env w = inr bk →
  timer_started env (session_state w) i = Some t0 →
  let r := remaining_time (elapsed env t0) in
  let res := render env w in
  let s' := session_state res.1 in
  let shown :=
    header i qs ++
    [Subheader (q_question q); Radio (split_on ";"%char (q_options q));
     TimerLine (if r <=? 5 then "red" else "black") r] in
  (player_name s' = Some name ∧ shuffled_questions s' = Some qs ∧
   timer_start_ s' !! i = Some t0 ∧
   timer_ s' !! i = Some (default time_limit (timer_ (session_state w) !! i)) ∧
   selected s' i = selected (session_state w) i ∧ cache res.1 = Some bk) ∧
  (∃ rest, screen res.1 = shown ++ rest) ∧
  if (r =? 0) || submit_answer env then
    score s' = Some (graded (session_state w) i q sc) ∧
    if auth_ok env && append_ok env then
      res.2 = Rerun ∧ current_q s' = Some (i + 1) ∧
      sheet res.1 =
        sheet w ++ [attempt name (graded (session_state w) i q sc) i]
    else
      res.2 = Raised GSpreadException ∧ current_q s' = Some i ∧
      sheet res.1 = sheet w
  else
    score s' = Some sc ∧ current_q s' = Some i ∧ sheet res.1 = sheet w ∧
    res.2 ≠ Rerun ∧
    (auth_ok env && get_all_ok env = false →
     res.2 = Raised GSpreadException ∧
     screen res.1 = shown ++ [Subheader "Top 5 Players So Far"]).
Proof.
  intros Hip Hb Ht.
  pose proof (in_progress_bounds _ _ _ _ _ _ Hip) as (Hr & Hnil & Hlt).
  pose proof Hip as (Hn & Hne & Hsq & Hcq & Hsc & Hi & Hq).
  cbv zeta.
  rewrite (render_started env w name qs i sc bk) by done.
  rewrite Hlt.
  apply (question_pass_run env
           (mkWorld (session_state w) (sheet w) (Some bk) (header i qs))
           name qs i sc q t0); done.
Qed.

(** The question branch either advances, having graded and saved,
    or leaves the index and the sheet alone. *)
Lemma question_pass_cases env w name qs i sc q :
  InProgress w name qs i sc q →
  let res := question_pass i env w in
  let s' := session_state res.1 in
  let sc' := graded (session_state w) i q sc in
  player_name s' = Some name ∧ shuffled_questions s' = Some qs ∧
  ((current_q s' = Some (i + 1) ∧ score s' = Some sc' ∧
    sheet res.1 = sheet w ++ [attempt name sc' i] ∧ res.2 = Rerun ∧
    auth_ok env && append_ok env = true) ∨
   (current_q s' = Some i ∧ sheet res.1 = sheet w ∧ res.2 ≠ Rerun ∧
    (score s' = Some sc ∨
     score s' = Some sc' ∧ auth_ok env && append_ok env = false))).
Proof.
  intros Hip. cbv zeta.
  destruct (timer_started env (session_state w) i) as [t0|] eqn:Ht.
  - pose proof (question_pass_run env w name qs i sc q t0 Hip Ht) as H.
    cbv zeta in H. destruct H as ((Hn' & Hsq' & _) & _ & H).
    split; [done|]. split; [done|].
    destruct ((remaining_time (elapsed env t0) =? 0) || submit_answer env).
    + destruct H as [Hsc' H].
      destruct (auth_ok env && append_ok env).
      * destruct H as (? & ? & ?). by left.
      * destruct H as (-> & ? & ?). right. repeat split; auto.
    + destruct H as (? & ? & ? & ? & _). right. repeat split; auto.
  - pose proof (question_pass_no_start env w name qs i sc q Hip Ht)
      as (Ho & ? & ? & ? & ? & ?).
    split; [done|]. split; [done|]. right. rewrite Ho.
    repeat split; auto.
Qed.


Lemma graded_bounds s i q sc : sc ≤ graded s i q sc ≤ sc + 1.
Proof. unfold graded. case_bool_decide; lia. Qed.
End blocks.

(** ** The invariant of a session whose writes succeed *)

Section invariant.
Implicit Types (env : Env) (w : World) (s : SessionState).



(** From the progress bar on, in a started session. *)
Lemma quiz_body_started env w name qs i sc :
  player_name (session_state w) = Some name →
  shuffled_questions (session_state w) = Some qs →
  current_q (session_state w) = Some i →
  score (session_state w) = Some sc →
  0 ≤ i ≤ Z.of_nat (length qs) →
  quiz_body env w =
    if decide (qs = []) then (w, Raised ZeroDivisionError)
    else (if i <? Z.of_nat (length qs) then question_pass i
          else completed_pass) env
           (mkWorld (session_state w) (sheet w) (cache w)
              (screen w ++ [ProgressBar i (Z.of_nat (length qs));
                            Caption (i + 1) (Z.of_nat (length qs))])).
Proof.
  intros Hn Hsq Hcq Hsc Hi. open_world w. subst.
  unfold quiz_body, show_progress. monad_simpl.
  destruct qs as [|q qs]; [done|].
  rewrite decide_False by done.
  replace (Z.of_nat (length (q :: qs)) =? 0) with false
    by (symmetry; apply Z.eqb_neq; simpl; lia).
  replace (i <? 0) with false by (symmetry; apply Z.ltb_ge; lia).
  replace (Z.of_nat (length (q :: qs)) <? i) with false
    by (symmetry; apply Z.ltb_ge; lia).
  monad_simpl. by rewrite <- app_assoc.
Qed.




End invariant.

(** ** The claims *)

(** C1.  The leaderboard ranking is a stable sort of all records by
    score descending, then percentage descending: the sorted frame is
    a permutation of the records, every row has keys at least those of
    every later row, and rows that tie on both keys keep their read
    order.  [top5] is the first [min 5 (length records)] rows of it, and
    [player_rank] is [k] exactly when [k] is the 1-based position of the
    first row named after the player.  On the records A (5, 80),
    B (5, 90), C (3, 100), with any totals, the ranking for B is
    [B; A; C] and rank 1. *)
Theorem rank_is_stable_sort_top5_first_match
    (records : list AttemptRecord) (player : string) :
  sort_values records ≡ₚ records ∧
  StronglySorted before (sort_values records) ∧
  (∀ r, List.filter (key_eq r) (sort_values records) =
        List.filter (key_eq r) records) ∧
  (rank records player).1 =
    take (5 `min` length records) (sort_values records) ∧
  (∀ k, (rank records player).2 = inr k ↔
        first_named player (sort_values records) k) ∧
  (∀ ta tb tc,
     rank [mkAttempt "A" 5 ta 80; mkAttempt "B" 5 tb 90;
           mkAttempt "C" 3 tc 100] "B" =
     ([mkAttempt "B" 5 tb 90; mkAttempt "A" 5 ta 80; mkAttempt "C" 3 tc 100],
      inr 1%nat)).
Proof.
  split; [apply sort_values_perm|].
  split; [apply sort_values_sorted|].
  split; [intros r; apply sort_values_stable|].
  split.
  - unfold rank, head_rows. cbn [fst].
    destruct (Nat.min_spec 5 (length records)) as [[Hlt ->]|[Hge ->]]; [done|].
    rewrite !take_ge; [done|rewrite sort_values_length; lia..].
  - split; [intros k; apply player_rank_first|]. done.
Qed.

(** C10.  The rank lookup of the completion branch is defined exactly
    when some record of the sheet carries the player's name.  For a
    completed session and a sheet with no such record the lookup
    raises IndexError, and the completion pass fails: whatever the
    environment, it ends in an exception, and it is that IndexError
    once the bank, the sheet and the row colours are all there. *)
Theorem completed_rank_needs_own_record
    (env : Env) (w : World) (name : string) (qs : list Question) (sc : Z) :
  Completed w name qs sc →
  (∀ r, r ∈ sheet w → Name r ≠ name) →
  player_rank (sort_values (sheet w)) name = inl IndexError ∧
  (∃ e, (render env w).2 = Raised e) ∧
  (is_Some (colors (session_state w)) → (∃ bk, bank env w = inr bk) →
   auth_ok env = true → get_all_ok env = true →
   (render env w).2 = Raised IndexError).
Proof.
  intros Hc Hno.
  assert (player_rank (sort_values (sheet w)) name = inl IndexError) as Hrank.
  { apply player_rank_missing. intros r Hr. apply Hno.
    by rewrite <- (sort_values_perm (sheet w)). }
  split; [done|].
  pose proof Hc as (Hn & Hne & Hsq & Hcq & Hsc & Hnil).
  assert (∀ bk, bank env w = inr bk →
            render env w =
              completed_pass env
                (mkWorld (session_state w) (sheet w) (Some bk)
                         (header (Z.of_nat (length qs)) qs))) as Hrun.
  { intros bk Hb.
    rewrite (render_started env w name qs (Z.of_nat (length qs)) sc bk);
      [|done..|lia|done|done].
    by rewrite Z.ltb_irrefl. }
  split.
  - destruct (bank env w) as [e|bk] eqn:Hb.
    { exists e. by rewrite (render_bank_missing env w name e). }
    rewrite (Hrun bk eq_refl).
    match goal with |- context [completed_pass env ?w0] =>
      pose proof (completed_pass_run env w0 name qs sc Hc) as H
    end.
    cbv zeta in H. simpl in H. destruct H as (_ & _ & Hdown & Hup).
    destruct (auth_ok env) eqn:Ha; [|exists GSpreadException; by apply Hdown].
    destruct (get_all_ok env) eqn:Hg; [|exists GSpreadException; by apply Hdown].
    rewrite Hrank in Hup.
    destruct (colors (session_state w)) as [cs|] eqn:Hcl.
    + exists IndexError. by apply Hup.
    + clear Hup Hdown. open_world w. subst.
      unfold completed_pass, leaderboard_panel, load_leaderboard,
        authenticate_google_sheets, get_all_records.
      assert ((Z.of_nat (length qs) =? 0) = false) as Hn0.
      { apply Z.eqb_neq. destruct qs; [done|]. simpl. lia. }
      monad_simpl. rewrite Hn0. monad_simpl. rewrite Ha. monad_simpl.
      rewrite Hg. monad_simpl. unfold head_rows.
      destruct (sort_values sh) as [|r l] eqn:Hs; monad_simpl.
      * eauto.
      * eauto.
  - intros Hcl [bk Hb] Ha Hg. rewrite (Hrun bk Hb).
    match goal with |- context [completed_pass env ?w0] =>
      pose proof (completed_pass_run env w0 name qs sc Hc) as H
    end.
    cbv zeta in H. simpl in H. destruct H as (_ & _ & _ & Hup).
    rewrite Hrank in Hup. by apply Hup.
Qed.

Lemma completed_rank_needs_own_record_witness :
  Completed demo_lost "ann" demo_bank 1 ∧
  (∀ r, r ∈ sheet demo_lost → Name r ≠ "ann") ∧
  (render (demo_env 130 false false true true) demo_lost).2 = Raised IndexError.
Proof.
  assert (Completed demo_lost "ann" demo_bank 1) as Hc.
  { repeat split; try done; vm_compute; reflexivity. }
  assert (∀ r, r ∈ sheet demo_lost → Name r ≠ "ann") as Hno.
  { intros r Hr. apply list_elem_of_singleton in Hr. by subst. }
  split; [done|]. split; [done|].
  apply (completed_rank_needs_own_record
           (demo_env 130 false false true true) demo_lost "ann" demo_bank 1
           Hc Hno).
  - vm_compute. eauto.
  - exists demo_bank. vm_compute. reflexivity.
  - reflexivity.
  - reflexivity.
Defined.





(** C5, as the code has it.  A failed write is not absorbed: when the
    append (or the authentication before it) fails in a pass that
    grades a question, the exception ends the pass, no row is written
    and the index stays where it was. *)
Theorem failed_write_ends_pass_without_advance
    (env : Env) (w : World) (name : string) (qs : list Question)
    (i sc : Z) (q : Question) (bk : list Question) (t0 : Q) :
  InProgress w name qs i sc q →
  bank env w = inr bk →
  timer_started env (session_state w) i = Some t0 →
  (remaining_time (elapsed env t0) =? 0) || submit_answer env = true →
  auth_ok env && append_ok env = false →
  (render env w).2 = Raised GSpreadException ∧
  current_q (session_state (render env w).1) = Some i ∧
  sheet (render env w).1 = sheet w.
Proof.
  intros Hip Hb Ht Hdue Hdown.
  pose proof (render_question env w name qs i sc q bk t0 Hip Hb Ht) as H.
  cbv zeta in H. rewrite Hdue, Hdown in H. by destruct H as (_ & _ & _ & H).
Qed.

Lemma failed_write_ends_pass_without_advance_witness :
  (render (write_fails (demo_env 120 false false true true)) demo_picked).2 =
    Raised GSpreadException ∧
  current_q (session_state
    (render (write_fails (demo_env 120 false false true true)) demo_picked).1) =
    Some 0 ∧
  sheet (render (write_fails (demo_env 120 false false true true))
           demo_picked).1 = sheet demo_picked.
Proof.
  apply (failed_write_ends_pass_without_advance
           (write_fails (demo_env 120 false false true true)) demo_picked
           "ann" demo_bank 0 0
           (mkQuestion "Capital of France?" "Paris;Rome;Oslo" "Paris")
           demo_bank 100).
  - repeat split; try done; vm_compute; reflexivity.
  - vm_compute. reflexivity.
  - vm_compute. reflexivity.
  - reflexivity.
  - reflexivity.
Defined.

(** C5 as stated fails: with the timer of question 0 run out, the pass
    whose write succeeds moves on to question 1, the same pass with the
    write failing stays at question 0. *)
Lemma failed_write_does_not_advance_cex :
  current_q (session_state
    (render (write_fails (demo_env 120 false false true true)) demo_picked).1)
  ≠ current_q (session_state
    (render (demo_env 120 false false true true) demo_picked).1).
Proof. vm_compute. discriminate. Qed.

(** C6, as the code has it.  A failed read is not absorbed either: in
    a pass that does not grade, a failing authentication or
    get_all_records ends the pass with the exception right after the
    leaderboard heading; no row, chart or placeholder is drawn, and the
    score, the index and the sheet are as before. *)
Theorem failed_read_ends_pass
    (env : Env) (w : World) (name : string) (qs : list Question)
    (i sc : Z) (q : Question) (bk : list Question) (t0 : Q) :
  InProgress w name qs i sc q →
  bank env w = inr bk →
  timer_started env (session_state w) i = Some t0 →
  (remaining_time (elapsed env t0) =? 0) || submit_answer env = false →
  auth_ok env && get_all_ok env = false →
  (render env w).2 = Raised GSpreadException ∧
  screen (render env w).1 =
    header i qs ++
    [Subheader (q_question q); Radio (split_on ";"%char (q_options q));
     TimerLine (if remaining_time (elapsed env t0) <=? 5 then "red" else "black")
               (remaining_time (elapsed env t0));
     Subheader "Top 5 Players So Far"] ∧
  score (session_state (render env w).1) = Some sc ∧
  current_q (session_state (render env w).1) = Some i ∧
  sheet (render env w).1 = sheet w.
Proof.
  intros Hip Hb Ht Hdue Hdown.
  pose proof (render_question env w name qs i sc q bk t0 Hip Hb Ht) as H.
  cbv zeta in H. rewrite Hdue in H.
  destruct H as (_ & _ & Hsc & Hcq & Hsh & _ & H).
  destruct (H Hdown) as [Ho Hscr].
  repeat split; try done.
Qed.

Lemma failed_read_ends_pass_witness :
  (render (demo_env 101 false false true false) demo_picked).2 =
    Raised GSpreadException ∧
  score (session_state
           (render (demo_env 101 false false true false) demo_picked).1) =
    Some 0.
Proof.
  destruct (failed_read_ends_pass
              (demo_env 101 false false true false) demo_picked
              "ann" demo_bank 0 0
              (mkQuestion "Capital of France?" "Paris;Rome;Oslo" "Paris")
              demo_bank 100) as (Ho & _ & Hsc & _).
  - repeat split; try done; vm_compute; reflexivity.
  - vm_compute. reflexivity.
  - vm_compute. reflexivity.
  - reflexivity.
  - reflexivity.
  - split; [exact Ho|exact Hsc].
Defined.

(** C6 as stated fails: with the sheet unreadable, the pass over
    question 0 does not come back with an empty leaderboard; it ends in
    the exception, and the page has neither rows nor the placeholder
    nor a chart. *)
Lemma failed_read_is_raised_cex :
  (render (demo_env 101 false false true false) demo_picked).2 =
    Raised GSpreadException ∧
  screen (render (demo_env 101 false false true false) demo_picked).1 =
    [Title; Intro; ProgressBar 0 2; Caption 1 2;
     Subheader "Capital of France?"; Radio ["Paris"; "Rome"; "Oslo"];
     TimerLine "black" 14; Subheader "Top 5 Players So Far"].
Proof. split; vm_compute; reflexivity. Qed.

(** C4.  For an elapsed time [e ≥ 0] the remaining time is
    [max (15 - e) 0]: 15 at 0, 0 at 15 and 0, never negative, from then
    on.  A pass over a question shows that value for the seconds
    elapsed since the start of the question's timer, which is the
    stored start, or the clock when the question is shown first.  What
    the session holds afterwards is that start and the constant under
    the timer key, the same as before when they were there: nothing
    counts down in the session. *)
Theorem remaining_time_is_recomputed
    (env : Env) (w : World) (name : string) (qs : list Question)
    (i sc : Z) (q : Question) (bk : list Question) (t0 : Q) (e : Z) :
  0 ≤ e →
  InProgress w name qs i sc q →
  bank env w = inr bk →
  timer_started env (session_state w) i = Some t0 →
  (remaining_time e = Z.max (15 - e) 0 ∧ 0 ≤ remaining_time e ∧
   (15 ≤ e → remaining_time e = 0)) ∧
  (remaining_time 0 = 15 ∧ remaining_time 15 = 0 ∧ remaining_time 20 = 0) ∧
  (∃ color rest,
     screen (render env w).1 =
       header i qs ++
       [Subheader (q_question q); Radio (split_on ";"%char (q_options q));
        TimerLine color (Z.max (15 - py_int (clock_now env - t0)) 0)] ++ rest) ∧
  timer_start_ (session_state (render env w).1) !! i = Some t0 ∧
  timer_ (session_state (render env w).1) !! i =
    Some (default 15 (timer_ (session_state w) !! i)).
Proof.
  intros He Hip Hb Ht.
  split; [|split; [done|]].
  { unfold remaining_time, time_limit. repeat split; lia. }
  pose proof (render_question env w name qs i sc q bk t0 Hip Hb Ht) as H.
  cbv zeta in H. destruct H as ((_ & _ & Hts' & Htm' & _) & [rest Hscr] & _).
  split; [|done].
  eexists _, rest. rewrite Hscr, <- app_assoc. done.
Qed.

Lemma remaining_time_is_recomputed_witness :
  (0 ≤ 7) ∧
  (∃ color rest,
     screen (render (demo_env 107 false false true true) demo_picked).1 =
       header 0 demo_bank ++
       [Subheader "Capital of France?"; Radio ["Paris"; "Rome"; "Oslo"];
        TimerLine color 8] ++ rest).
Proof.
  split; [lia|].
  destruct (remaining_time_is_recomputed
              (demo_env 107 false false true true) demo_picked "ann" demo_bank
              0 0 (mkQuestion "Capital of France?" "Paris;Rome;Oslo" "Paris")
              demo_bank 100 7) as (_ & _ & Hshow & _).
  - lia.
  - repeat split; try done; vm_compute; reflexivity.
  - vm_compute. reflexivity.
  - vm_compute. reflexivity.
  - exact Hshow.
Defined.

(** C8, as the code has it.  [load_questions] validates nothing.  On a
    first call it fails exactly when the reader fails, with the
    reader's exception, which ends the pass of a named player before
    anything but the title is drawn; whatever rows the reader returns
    are returned, and cached, as they are. *)
Theorem load_questions_hands_on_the_rows
    (env : Env) (w : World) (name : string) :
  cache w = None →
  player_name (session_state w) = Some name → name ≠ EmptyString →
  match read_csv env with
  | inl e =>
      load_questions env w = (w, Raised e) ∧
      render env w =
        (mkWorld (session_state w) (sheet w) None [Title; Intro], Raised e)
  | inr rows =>
      load_questions env w =
        (mkWorld (session_state w) (sheet w) (Some rows) (screen w), Value rows)
  end.
Proof.
  intros Hc Hn Hne. unfold load_questions. rewrite Hc.
  destruct (read_csv env) as [e|rows] eqn:Hr; [|done].
  split; [done|].
  rewrite (render_bank_missing env w name e); [by rewrite Hc|done|done|].
  unfold bank. by rewrite Hc.
Qed.

Lemma load_questions_hands_on_the_rows_witness :
  render (mkEnv "ann" false false 100 100 (λ l, l) (λ _, "rgb(200,200,200)")
            (inl FileNotFoundError) true true true)
         (mkWorld (set_player_name (Some "ann") empty_session) [] None []) =
    (mkWorld (set_player_name (Some "ann") empty_session) [] None
       [Title; Intro], Raised FileNotFoundError).
Proof.
  apply (load_questions_hands_on_the_rows
           (mkEnv "ann" false false 100 100 (λ l, l) (λ _, "rgb(200,200,200)")
              (inl FileNotFoundError) true true true)
           (mkWorld (set_player_name (Some "ann") empty_session) [] None [])
           "ann"); [reflexivity|reflexivity|done].
Defined.

(** C8 as stated fails: a file whose only question has the options
    Paris and Oslo and the answer Rome is loaded without any error. *)
Lemma load_questions_takes_a_bad_row_cex :
  let q := mkQuestion "Capital of Italy?" "Paris;Oslo" "Rome" in
  let env := mkEnv "ann" false false 100 100 (λ l, l)
               (λ _, "rgb(200,200,200)") (inr [q]) true true true in
  (q_answer q ∉ split_on ";"%char (q_options q)) ∧
  load_questions env demo_fresh =
    (mkWorld empty_session [] (Some [q]) [], Value [q]).
Proof.
  split; [|reflexivity].
  simpl. intros H. repeat (apply elem_of_cons in H as [H|H]; [done|]).
  by apply elem_of_nil in H.
Qed.

(** C7 at a finished session.  Play Again deletes the order, the
    index, the score and the colours and leaves the sheet alone, but
    the timer keys of the old session stay: question 0 still has its
    timer, started at time 100.  The next pass therefore finds the time
    of question 0 of the new session used up, grades it at once and
    moves on. *)
Theorem play_again_keeps_the_timers :
  let again := render (demo_env 130 false true true true) demo_done in
  again.2 = Rerun ∧
  shuffled_questions (session_state again.1) = None ∧
  current_q (session_state again.1) = None ∧
  score (session_state again.1) = None ∧
  sheet again.1 = sheet demo_done ∧
  timer_ (session_state again.1) !! 0 = Some 15 ∧
  timer_start_ (session_state again.1) !! 0 = Some (100 : Q) ∧
  current_q (session_state (run again.1 [tick 131])) = Some 1 ∧
  current_q (session_state (run again.1 [Forget 0; Forget 1; tick 131])) =
    Some 1.
Proof. repeat split; vm_compute; reflexivity. Qed.




(** ** Further properties of the script *)

(** *** Numbers *)







Lemma quot_ge (n d k : Z) : 0 < d → 0 < k → (k ≤ Z.quot n d ↔ k * d ≤ n).
Proof.
  intros Hd Hk.
  pose proof (Z.quot_rem' n d) as E.
  destruct (Z_le_gt_dec 0 n) as [Hn|Hn].
  - pose proof (Z.rem_bound_pos n d Hn Hd). split; intros; nia.
  - assert (- d < Z.rem n d ≤ 0) by (apply Z.rem_bound_pos_neg; lia).
    split; intros; nia.
Qed.

(** [int] of a difference of timestamps has reached a positive number
    of seconds exactly when the difference has. *)
Lemma py_int_ge (x : Q) (k : Z) :
  0 < k → (k ≤ py_int x ↔ (inject_Z k <= x)%Q).
Proof.
  intros Hk. unfold py_int, Qle. simpl.
  rewrite quot_ge by lia. lia.
Qed.

Lemma py_int_nonneg (x : Q) : (0 <= x)%Q → 0 ≤ py_int x.
Proof.
  unfold py_int, Qle. simpl. intros Hx. apply Z.quot_pos; lia.
Qed.

Lemma py_int_le_neg (x : Q) (k : Z) :
  k < 0 → (py_int x ≤ k ↔ (x <= inject_Z k)%Q).
Proof.
  intros Hk. unfold py_int, Qle. simpl. destruct x as [n d]. simpl.
  pose proof (Z.quot_rem' n (Z.pos d)) as E.
  destruct (Z_le_gt_dec 0 n) as [Hn|Hn].
  - pose proof (Z.rem_bound_pos n (Z.pos d) Hn).
    assert (0 ≤ Z.quot n (Z.pos d)) by (apply Z.quot_pos; lia).
    split; intros; nia.
  - assert (- Z.pos d < Z.rem n (Z.pos d) ≤ 0)
      by (apply Z.rem_bound_pos_neg; lia).
    split; intros; nia.
Qed.

Lemma remaining_zero (e : Z) : remaining_time e = 0 ↔ 15 ≤ e.
Proof. unfold remaining_time, time_limit. lia. Qed.

(** *** The option string *)

Lemma append_cons a (s t : string) :
  String.append (String a s) t = String a (String.append s t).
Proof. reflexivity. Qed.

Lemma append_nil_r (s : string) : String.append s EmptyString = s.
Proof. induction s as [|a s IH]; [done|]. by rewrite append_cons, IH. Qed.

Lemma split_on_nonempty c s : split_on c s ≠ [].
Proof.
  destruct s as [|a s]; simpl; [done|].
  destruct (Ascii.eqb a c); [done|]. by destruct (split_on c s).
Qed.

Lemma split_on_append c p t :
  occurs c p = 0%nat →
  split_on c (String.append p t) =
    match split_on c t with
    | [] => [p]
    | w :: ws => String.append p w :: ws
    end.
Proof.
  intros Hp. induction p as [|a p IHp].
  - change (String.append EmptyString t) with t.
    pose proof (split_on_nonempty c t). by destruct (split_on c t).
  - rewrite append_cons. simpl in *. destruct (Ascii.eqb a c); [done|].
    rewrite IHp by done.
    destruct (split_on c t); simpl; rewrite ?append_cons; reflexivity.
Qed.

(** X7.  The options shown for a question are the [options] column cut
    at its semicolons: joined by semicolons again they give the column
    back, there is one more of them than there are semicolons, and none
    of them contains one. *)
Theorem split_on_round_trip (c : ascii) (s : string) :
  join_with c (split_on c s) = s ∧
  length (split_on c s) = S (occurs c s) ∧
  Forall (λ piece, occurs c piece = 0%nat) (split_on c s).
Proof.
  induction s as [|a s (IHj & IHl & IHf)]; simpl.
  - repeat split; auto.
  - pose proof (split_on_nonempty c s) as Hne.
    destruct (Ascii.eqb a c) eqn:E.
    + apply Ascii.eqb_eq in E as ->.
      destruct (split_on c s) as [|p ps] eqn:Es; [done|].
      split; [|split].
      * change (join_with c (EmptyString :: p :: ps))
          with (String.append EmptyString (String c (join_with c (p :: ps)))).
        by rewrite IHj.
      * simpl in *. lia.
      * by constructor.
    + destruct (split_on c s) as [|p ps] eqn:Es; [done|].
      split; [|split].
      * rewrite <- IHj. destruct ps as [|p' ps]; [done|].
        change (join_with c (String a p :: p' :: ps))
          with (String.append (String a p)
                  (String c (join_with c (p' :: ps)))).
        by rewrite append_cons.
      * simpl in *. lia.
      * inversion IHf; subst. constructor; [|done]. simpl. by rewrite E.
Qed.

(** X8.  The other way round: options that contain no semicolon, joined
    by semicolons into one column, are read back as they were. *)
Theorem split_on_of_join (c : ascii) (l : list string) :
  l ≠ [] → Forall (λ piece, occurs c piece = 0%nat) l →
  split_on c (join_with c l) = l.
Proof.
  intros Hne Hf. induction Hf as [|p ps Hp Hps IH]; [done|]. clear Hne.
  destruct ps as [|p' ps'].
  - simpl. pose proof (split_on_append c p EmptyString Hp) as H.
    rewrite append_nil_r in H. simpl in H. by rewrite append_nil_r in H.
  - change (join_with c (p :: p' :: ps'))
      with (String.append p (String c (join_with c (p' :: ps')))).
    rewrite split_on_append by done. cbn [split_on]. rewrite Ascii.eqb_refl.
    rewrite IH by done. by rewrite append_nil_r.
Qed.

Lemma split_on_of_join_witness :
  split_on ";"%char (join_with ";"%char ["Paris"; "Rome"; "Oslo"]) =
    ["Paris"; "Rome"; "Oslo"].
Proof.
  apply (split_on_of_join ";"%char ["Paris"; "Rome"; "Oslo"]); [done|].
  repeat constructor.
Defined.

(** *** The question bank *)


(** *** The name prompt *)

Lemma render_empty_name env w :
  player_name (session_state w) = Some EmptyString →
  render env w =
    (mkWorld (session_state w) (sheet w) (cache w) [Title; Intro; NameWarning],
     Returned).
Proof.
  intros Hn. open_world w. subst.
  unfold render, run_quiz, ask_player_name. monad_simpl. done.
Qed.

Lemma run_cons w ev evs : run w (ev :: evs) = run (step w ev) evs.
Proof. reflexivity. Qed.

(** X3.  The name is read from the text input only while the key
    [player_name] is missing.  A first pass that finds the input empty
    stores the empty name, and from then on no pass reads the input
    again: whatever is typed, pressed or selected afterwards, every pass
    draws the warning and returns, no question is ever drawn and the
    sheet is never touched. *)
Theorem empty_name_is_never_asked_again
    (env0 : Env) (w0 : World) (evs : list Event) :
  player_name (session_state w0) = None →
  text_input env0 = EmptyString →
  player_name (session_state (run w0 (Pass env0 :: evs))) = Some EmptyString ∧
  shuffled_questions (session_state (run w0 (Pass env0 :: evs))) =
    shuffled_questions (session_state w0) ∧
  sheet (run w0 (Pass env0 :: evs)) = sheet w0 ∧
  ∀ env,
    render env (run w0 (Pass env0 :: evs)) =
      (mkWorld (session_state (run w0 (Pass env0 :: evs)))
         (sheet w0) (cache w0) [Title; Intro; NameWarning], Returned).
Proof.
  intros Hn Ht.
  assert (∀ evs w, player_name (session_state w) = Some EmptyString →
            player_name (session_state (run w evs)) = Some EmptyString ∧
            shuffled_questions (session_state (run w evs)) =
              shuffled_questions (session_state w) ∧
            sheet (run w evs) = sheet w ∧ cache (run w evs) = cache w) as Hrun.
  { clear. intros evs. induction evs as [|ev evs IH]; intros w Hw; [done|].
    rewrite run_cons.
    assert (player_name (session_state (step w ev)) = Some EmptyString ∧
            shuffled_questions (session_state (step w ev)) =
              shuffled_questions (session_state w) ∧
            sheet (step w ev) = sheet w ∧ cache (step w ev) = cache w)
      as (H1 & H2 & H3 & H4).
    { destruct ev as [env|i o|i]; simpl; [|done|done].
      by rewrite render_empty_name. }
    destruct (IH (step w ev) H1) as (? & ? & ? & ?).
    repeat split; congruence. }
  rewrite run_cons. change (step w0 (Pass env0)) with (render env0 w0).1.
  assert (render env0 w0 =
            (mkWorld (set_player_name (Some EmptyString) (session_state w0))
               (sheet w0) (cache w0) [Title; Intro; TextInput; NameWarning],
             Returned)) as E.
  { open_world w0. subst. unfold render, run_quiz, ask_player_name.
    monad_simpl. rewrite Ht. monad_simpl. done. }
  rewrite E. simpl.
  match goal with |- context [run ?w1 evs] =>
    destruct (Hrun evs w1 eq_refl) as (H1 & H2 & H3 & H4) end.
  simpl in *. split; [done|]. split; [done|]. split; [done|].
  intros env. rewrite render_empty_name by done. by rewrite H3, H4.
Qed.

Lemma empty_name_is_never_asked_again_witness :
  (render (demo_env 300 true false true true)
     (run demo_fresh
        [Pass (mkEnv "" false false 100 100 (λ l, l) (λ _, "rgb(200,200,200)")
                 (inr demo_bank) true true true);
         tick 105; Select 0 "Paris"; tick 200])).2 = Returned.
Proof.
  destruct (empty_name_is_never_asked_again
              (mkEnv "" false false 100 100 (λ l, l) (λ _, "rgb(200,200,200)")
                 (inr demo_bank) true true true)
              demo_fresh [tick 105; Select 0 "Paris"; tick 200])
    as (_ & _ & _ & H); [reflexivity|reflexivity|].
  by rewrite H.
Defined.

(** *** The timer *)

(** X5.  Without Submit and with the sheet taking the write, a pass
    over a question advances exactly when the clock is fifteen seconds
    or more past the start of the question's timer, and leaves the index
    alone exactly when it is less. *)
Theorem timer_runs_out_after_fifteen_seconds
    (env : Env) (w : World) (name : string) (qs : list Question)
    (i sc : Z) (q : Question) (bk : list Question) (t0 : Q) :
  InProgress w name qs i sc q →
  bank env w = inr bk →
  timer_started env (session_state w) i = Some t0 →
  submit_answer env = false →
  auth_ok env = true → append_ok env = true →
  (current_q (session_state (render env w).1) = Some (i + 1) ↔
   (15 <= clock_now env - t0)%Q) ∧
  (current_q (session_state (render env w).1) = Some i ↔
   (clock_now env - t0 < 15)%Q).
Proof.
  intros Hip Hb Ht Hsub Ha Hw.
  pose proof (render_question env w name qs i sc q bk t0 Hip Hb Ht) as H.
  cbv zeta in H. rewrite Hsub, Ha, Hw, orb_false_r in H. simpl in H.
  destruct H as (_ & _ & H).
  pose proof (remaining_zero (elapsed env t0)) as Hz.
  pose proof (py_int_ge (clock_now env - t0) 15 eq_refl) as Hge.
  fold (elapsed env t0) in Hge. change (inject_Z 15) with 15%Q in Hge.
  destruct (remaining_time (elapsed env t0) =? 0) eqn:E.
  - apply Z.eqb_eq in E. destruct H as (_ & _ & Hcq & _). rewrite Hcq.
    assert (15 <= clock_now env - t0)%Q as Hq by (apply Hge, Hz, E).
    split; split; try done.
    + intros [= ?]. lia.
    + intros Hlt. exfalso. lra.
  - apply Z.eqb_neq in E. destruct H as (_ & Hcq & _). rewrite Hcq.
    assert (¬ (15 <= clock_now env - t0)%Q) as Hq.
    { intros Hq. apply E, Hz, Hge, Hq. }
    split; split; try done.
    + intros [= ?]. lia.
    + intros _. lra.
Qed.

Lemma timer_runs_out_after_fifteen_seconds_witness :
  current_q (session_state
    (render (demo_env (229 # 2) false false true true) demo_picked).1) =
    Some 0 ∧
  current_q (session_state
    (render (demo_env 115 false false true true) demo_picked).1) = Some 1.
Proof.
  split.
  - destruct (timer_runs_out_after_fifteen_seconds
                (demo_env (229 # 2) false false true true) demo_picked
                "ann" demo_bank 0 0
                (mkQuestion "Capital of France?" "Paris;Rome;Oslo" "Paris")
                demo_bank 100) as [_ H].
    + repeat split; try done; vm_compute; reflexivity.
    + vm_compute. reflexivity.
    + vm_compute. reflexivity.
    + reflexivity.
    + reflexivity.
    + reflexivity.
    + apply H. vm_compute. reflexivity.
  - destruct (timer_runs_out_after_fifteen_seconds
                (demo_env 115 false false true true) demo_picked
                "ann" demo_bank 0 0
                (mkQuestion "Capital of France?" "Paris;Rome;Oslo" "Paris")
                demo_bank 100) as [H _].
    + repeat split; try done; vm_compute; reflexivity.
    + vm_compute. reflexivity.
    + vm_compute. reflexivity.
    + reflexivity.
    + reflexivity.
    + reflexivity.
    + apply H. vm_compute. discriminate.
Defined.

(** X6.  The timer line of a pass over a question is red from ten
    seconds past the start of the timer on and black before.  The time
    it shows is between 0 and 15 when the clock is not behind the start;
    it is above 15 when the clock is a second or more behind it, since
    only the lower end is clamped. *)
Theorem timer_line_colour_and_range
    (env : Env) (w : World) (name : string) (qs : list Question)
    (i sc : Z) (q : Question) (bk : list Question) (t0 : Q) :
  InProgress w name qs i sc q →
  bank env w = inr bk →
  timer_started env (session_state w) i = Some t0 →
  ∃ colour left rest,
    screen (render env w).1 =
      header i qs ++
      [Subheader (q_question q); Radio (split_on ";"%char (q_options q));
       TimerLine colour left] ++ rest ∧
    (colour = "red" ↔ (10 <= clock_now env - t0)%Q) ∧
    (colour = "black" ↔ (clock_now env - t0 < 10)%Q) ∧
    ((0 <= clock_now env - t0)%Q → 0 ≤ left ≤ 15) ∧
    ((clock_now env - t0 <= -1)%Q → 15 < left).
Proof.
  intros Hip Hb Ht.
  pose proof (render_question env w name qs i sc q bk t0 Hip Hb Ht) as H.
  cbv zeta in H. destruct H as (_ & [rest Hscr] & _).
  eexists _, _, rest. split; [rewrite Hscr, <- app_assoc; reflexivity|].
  pose proof (py_int_ge (clock_now env - t0) 10 eq_refl) as Hge.
  pose proof (py_int_nonneg (clock_now env - t0)) as Hnn.
  pose proof (py_int_le_neg (clock_now env - t0) (-1) eq_refl) as Hneg.
  fold (elapsed env t0) in Hge, Hnn, Hneg.
  change (inject_Z 10) with 10%Q in Hge.
  change (inject_Z (-1)) with (-1)%Q in Hneg.
  unfold remaining_time, time_limit in *.
  split; [|split; [|split]].
  - destruct (Z.leb_spec (Z.max (15 - elapsed env t0) 0) 5) as [Hle|Hgt].
    + split; [|done]. intros _. apply Hge. lia.
    + split; [done|]. intros Hq. apply Hge in Hq. lia.
  - destruct (Z.leb_spec (Z.max (15 - elapsed env t0) 0) 5) as [Hle|Hgt].
    + split; [done|]. intros Hq.
      assert (10 <= clock_now env - t0)%Q by (apply Hge; lia). lra.
    + split; [|done]. intros _. apply Qnot_le_lt. intros Hq.
      apply Hge in Hq. lia.
  - intros Hq. specialize (Hnn Hq). lia.
  - intros Hq. apply Hneg in Hq. lia.
Qed.

Lemma timer_line_colour_and_range_witness :
  ∃ left rest,
    screen (render (demo_env 98 false false true true) demo_picked).1 =
      header 0 demo_bank ++
      [Subheader "Capital of France?"; Radio ["Paris"; "Rome"; "Oslo"];
       TimerLine "black" left] ++ rest ∧
    15 < left.
Proof.
  destruct (timer_line_colour_and_range
              (demo_env 98 false false true true) demo_picked
              "ann" demo_bank 0 0
              (mkQuestion "Capital of France?" "Paris;Rome;Oslo" "Paris")
              demo_bank 100) as (c & l & rest & Hs & _ & Hb & _ & Hneg).
  - repeat split; try done; vm_compute; reflexivity.
  - vm_compute. reflexivity.
  - vm_compute. reflexivity.
  - exists l, rest. split.
    + rewrite Hs. assert (c = "black") as -> by (apply Hb; reflexivity). done.
    + apply Hneg. vm_compute. discriminate.
Defined.

(** *** The leaderboard panel and the chart *)

Lemma leaderboard_rows_run rows : ∀ i env w cs,
  colors (session_state w) = Some cs →
  leaderboard_rows (S i) rows env w =
    (mkWorld (session_state w) (sheet w) (cache w)
       (screen w ++ imap (λ k, drawn_row env cs (i + k)) rows), Value ()).
Proof.
  induction rows as [|row rows IH]; intros i env w cs Hc.
  - simpl. rewrite app_nil_r. by destruct w.
  - cbn [leaderboard_rows]. open_world w. subst. monad_simpl.
    rewrite (IH (S i) env _ cs) by reflexivity. simpl.
    rewrite <- app_assoc. simpl. unfold drawn_row at 2.
    rewrite Nat.add_0_r, Nat.sub_0_r.
    replace (bool_decide (S i = 1%nat)) with (bool_decide (i = 0%nat))
      by (apply bool_decide_ext; lia).
    do 4 f_equal. apply imap_ext. intros k r _. simpl.
    by rewrite Nat.add_succ_r.
Qed.

Lemma foldr_max_spec (a : Z) (l : list Z) :
  a ≤ foldr Z.max a l ∧ Forall (λ x, x ≤ foldr Z.max a l) l ∧
  (foldr Z.max a l = a ∨ foldr Z.max a l ∈ l).
Proof.
  induction l as [|x l (IH1 & IH2 & IH3)]; simpl.
  - split; [lia|]. split; [constructor|by left].
  - split; [lia|]. split.
    + constructor; [lia|]. eapply Forall_impl; [exact IH2|].
      intros y Hy. simpl in Hy. lia.
    + destruct (Z.max_spec x (foldr Z.max a l)) as [[_ ->]|[_ ->]].
      * destruct IH3 as [->|Hin]; [by left|]. right.
        by apply elem_of_cons; right.
      * right. apply elem_of_cons. by left.
Qed.

Lemma show_leaderboard_chart_run rows env w :
  ∃ drawn,
    show_leaderboard_chart rows env w =
      (mkWorld (session_state w) (sheet w) (cache w) (screen w ++ [drawn]),
       Value ()) ∧
    match drawn with
    | NoScoresYet => rows = []
    | Chart bars x_max =>
        rows ≠ [] ∧ bars = reverse rows ∧
        Forall (λ r, Score r < x_max) rows ∧
        Exists (λ r, x_max = Score r + 1) rows
    | _ => False
    end.
Proof.
  destruct rows as [|r rest]; simpl; [by eexists|].
  eexists. split; [reflexivity|]. simpl.
  split; [done|]. split; [done|].
  destruct (foldr_max_spec (Score r) (Score <$> rest)) as (H1 & H2 & H3).
  split.
  - constructor; [lia|]. apply Forall_forall. intros y Hy.
    rewrite Forall_forall in H2. specialize (H2 (Score y)).
    assert (Score y ∈ Score <$> rest) as Hin
      by (apply list_elem_of_fmap; eauto).
    specialize (H2 Hin). simpl in H2. lia.
  - destruct H3 as [->|Hin].
    + by constructor.
    + apply Exists_cons_tl. apply list_elem_of_fmap in Hin as (y & Hy & Hin).
      apply Exists_exists. exists y. split; [done|]. by rewrite Hy.
Qed.

Lemma leaderboard_panel_run title env w cs :
  auth_ok env = true → get_all_ok env = true →
  colors (session_state w) = Some cs →
  ∃ chart,
    leaderboard_panel title env w =
      (mkWorld (session_state w) (sheet w) (cache w)
         (screen w ++
          imap (drawn_row env cs) (take 5 (sort_values (sheet w))) ++
          [Subheader title; chart]),
       Value (sort_values (sheet w))) ∧
    (chart = NoScoresYet ↔ sheet w = []) ∧
    match chart with
    | NoScoresYet => True
    | Chart bars x_max =>
        bars = reverse (take 5 (sort_values (sheet w))) ∧
        Forall (λ r, Score r < x_max) (take 5 (sort_values (sheet w)))
    | _ => False
    end.
Proof.
  intros Ha Hg Hc.
  unfold leaderboard_panel, load_leaderboard, authenticate_google_sheets,
    get_all_records, head_rows.
  monad_simpl. rewrite Ha. monad_simpl. rewrite Hg. monad_simpl.
  rewrite (leaderboard_rows_run _ 0 env _ cs) by done. simpl.
  match goal with |- context [show_leaderboard_chart ?r ?e ?w0] =>
    destruct (show_leaderboard_chart_run r e w0) as (chart & -> & Hch)
  end.
  simpl. exists chart. split; [by rewrite <- !app_assoc|]. split.
  - assert (take 5 (sort_values (sheet w)) = [] ↔ sheet w = []) as Hnil.
    { pose proof (sort_values_length (sheet w)) as Hl.
      destruct (sheet w) as [|r l]; [done|].
      destruct (sort_values (r :: l)); [done|]. done. }
    rewrite <- Hnil. clear Hnil.
    destruct chart; try done; split; try done.
    intros Hn. by destruct Hch.
  - destruct chart; try done. by destruct Hch as (_ & ? & ? & _).
Qed.

(** X10.  The chart: for no rows the placeholder is drawn and no chart;
    otherwise one chart of the rows in reverse order, whose score axis
    ends one past the highest score among them, so past every bar. *)
Theorem chart_axis_is_past_every_score
    (rows : list AttemptRecord) (env : Env) (w : World) :
  ∃ drawn,
    show_leaderboard_chart rows env w =
      (mkWorld (session_state w) (sheet w) (cache w) (screen w ++ [drawn]),
       Value ()) ∧
    match drawn with
    | NoScoresYet => rows = []
    | Chart bars x_max =>
        rows ≠ [] ∧ bars = reverse rows ∧
        Forall (λ r, Score r < x_max) rows ∧
        Exists (λ r, x_max = Score r + 1) rows
    | _ => False
    end.
Proof. apply show_leaderboard_chart_run. Qed.



(** *** The completion page and Play Again *)

Lemma completed_pass_exact env w name qs sc cs k :
  Completed w name qs sc →
  auth_ok env = true → get_all_ok env = true →
  colors (session_state w) = Some cs →
  player_rank (sort_values (sheet w)) name = inr k →
  ∃ chart,
    completed_pass env w =
      (mkWorld
         (if play_again env then
            mkSession (Some name) None None None None
              (answer_ (session_state w)) (timer_ (session_state w))
              (timer_start_ (session_state w))
          else session_state w)
         (sheet w) (cache w)
         (screen w ++
          [Balloons; Audio "cheer.mp3"; Success QuizCompleted;
           YourScore sc (Z.of_nat (length qs));
           YourPercentage (percentage_of sc (Z.of_nat (length qs)))] ++
          imap (drawn_row env cs) (take 5 (sort_values (sheet w))) ++
          [Subheader "Top Players - Final Visual Ranking"; chart] ++
          congratulation name k),
       if play_again env then Rerun else Value ()) ∧
    (chart = NoScoresYet ↔ sheet w = []).
Proof.
  intros (Hn & Hne & Hsq & Hcq & Hsc & Hnil) Ha Hg Hc Hk.
  assert ((Z.of_nat (length qs) =? 0) = false) as Hn0.
  { apply Z.eqb_neq. destruct qs; [done|]. simpl. lia. }
  open_world w. subst.
  unfold completed_pass. monad_simpl. rewrite Hn0. monad_simpl.
  match goal with |- context [leaderboard_panel ?t env ?w0] =>
    destruct (leaderboard_panel_run t env w0 cs Ha Hg eq_refl)
      as (chart & -> & Hch & _)
  end.
  simpl in *. exists chart. split; [|done].
  rewrite Hk. unfold congratulation, restart.
  repeat case_bool_decide; repeat case_decide; try lia; monad_simpl;
    destruct (play_again env); monad_simpl; rewrite <- ?app_assoc; simpl;
    rewrite <- ?app_assoc; simpl; reflexivity.
Qed.

Lemma render_completed env w name qs sc bk :
  Completed w name qs sc → bank env w = inr bk →
  Completed (mkWorld (session_state w) (sheet w) (Some bk)
               (header (Z.of_nat (length qs)) qs)) name qs sc ∧
  render env w =
    completed_pass env
      (mkWorld (session_state w) (sheet w) (Some bk)
         (header (Z.of_nat (length qs)) qs)).
Proof.
  intros Hc Hb. split; [done|].
  pose proof Hc as (Hn & Hne & Hsq & Hcq & Hsc & Hnil).
  rewrite (render_started env w name qs (Z.of_nat (length qs)) sc bk);
    [|done..|lia|done|done].
  by rewrite Z.ltb_irrefl.
Qed.



(** X12.  Play Again on the completion page of a finished session
    whose player has a row in the readable sheet: the pass ends in a
    rerun; of the session exactly the order, the index, the score and
    the colours are gone, while the player's name, the stored
    selections and both timer keys of every question are as they were;
    the sheet and the cached bank are untouched. *)
Theorem play_again_deletes_four_keys
    (env : Env) (w : World) (name : string) (qs : list Question) (sc : Z)
    (bk : list Question) (cs : list string) (k : nat) :
  Completed w name qs sc →
  bank env w = inr bk →
  auth_ok env = true → get_all_ok env = true →
  colors (session_state w) = Some cs →
  player_rank (sort_values (sheet w)) name = inr k →
  play_again env = true →
  (render env w).2 = Rerun ∧
  session_state (render env w).1 =
    mkSession (Some name) None None None None
      (answer_ (session_state w)) (timer_ (session_state w))
      (timer_start_ (session_state w)) ∧
  sheet (render env w).1 = sheet w ∧
  cache (render env w).1 = Some bk.
Proof.
  intros Hc Hb Ha Hg Hcl Hk Hpa.
  destruct (render_completed env w name qs sc bk Hc Hb) as [Hc' ->].
  destruct (completed_pass_exact env _ name qs sc cs k Hc' Ha Hg Hcl Hk)
    as (chart & -> & _).
  by rewrite Hpa.
Qed.

Lemma play_again_deletes_four_keys_witness :
  (render (demo_env 130 false true true true) demo_done).2 = Rerun ∧
  sheet (render (demo_env 130 false true true true) demo_done).1 =
    sheet demo_done.
Proof.
  destruct (play_again_deletes_four_keys
              (demo_env 130 false true true true) demo_done "ann" demo_bank 1
              demo_bank
              (random_color (demo_env 130 false true true true) <$> seq 0 5)
              1%nat) as (H1 & _ & H2 & _).
  - repeat split; try done; vm_compute; reflexivity.
  - vm_compute. reflexivity.
  - reflexivity.
  - reflexivity.
  - vm_compute. reflexivity.
  - vm_compute. reflexivity.
  - reflexivity.
  - split; [exact H1|exact H2].
Defined.

(** *** What a pass may do, whatever the sheet does *)

Lemma session_shape_started s qs :
  session_shape s → shuffled_questions s = Some qs →
  ∃ name i sc,
    player_name s = Some name ∧ name ≠ EmptyString ∧
    current_q s = Some i ∧ score s = Some sc ∧
    0 ≤ i ≤ Z.of_nat (length qs) ∧ 0 ≤ sc.
Proof.
  unfold session_shape. intros H Hsq. rewrite Hsq in H.
  destruct (current_q s) as [i|]; [|done].
  destruct (score s) as [sc|]; [|done].
  destruct H as ((name & ? & ?) & ? & ?). by exists name, i, sc.
Qed.

Lemma session_shape_intro s name qs i sc :
  player_name s = Some name → name ≠ EmptyString →
  shuffled_questions s = Some qs → current_q s = Some i →
  score s = Some sc → 0 ≤ i ≤ Z.of_nat (length qs) → 0 ≤ sc →
  session_shape s.
Proof. unfold session_shape. intros ? ? -> -> -> ? ?. eauto. Qed.

(** From the progress bar on. *)
Lemma quiz_body_effect env w qs :
  session_shape (session_state w) →
  shuffled_questions (session_state w) = Some qs →
  session_shape (session_state (quiz_body env w).1) ∧
  pass_effect env w (quiz_body env w).1.
Proof.
  intros Hok Hsq.
  destruct (session_shape_started _ _ Hok Hsq)
    as (name & i & sc & Hn & Hne & Hcq & Hsc & Hi & Hle).
  rewrite (quiz_body_started env w name qs i sc) by done.
  destruct (decide (qs = [])) as [->|Hnil].
  { split; [done|]. unfold pass_effect. simpl. repeat split; auto. }
  destruct (decide (i < Z.of_nat (length qs))) as [Hlt|Hge].
  - replace (i <? Z.of_nat (length qs)) with true
      by (symmetry; by apply Z.ltb_lt).
    destruct (lookup_lt_is_Some_2 qs (Z.to_nat i)) as [q Hq]; [lia|].
    match goal with |- context [question_pass i env ?w0] =>
      assert (InProgress w0 name qs i sc q) as Hip
        by (repeat split; auto; lia);
      pose proof (question_pass_cases env w0 name qs i sc q Hip) as H;
      pose proof (graded_bounds (session_state w0) i q sc) as Hg
    end.
    cbv zeta in H. simpl in H, Hg. destruct H as (Hn' & Hsq' & [H|H]).
    + destruct H as (Hcq' & Hsc' & Hsh & _). split.
      * eapply session_shape_intro; eauto; lia.
      * unfold pass_effect. split; [|split].
        -- intros n' Hn''. congruence.
        -- intros qs' Hqs'. left. congruence.
        -- right. eexists name, _, i. repeat split; eauto; lia.
    + destruct H as (Hcq' & Hsh & _ & Hsc'). split.
      * destruct Hsc' as [Hsc'|[Hsc' _]];
          eapply session_shape_intro; eauto; lia.
      * unfold pass_effect. split; [|split].
        -- intros n' Hn''. congruence.
        -- intros qs' Hqs'. left. congruence.
        -- by left.
  - assert (i = Z.of_nat (length qs)) as -> by lia.
    rewrite Z.ltb_irrefl.
    match goal with |- context [completed_pass env ?w0] =>
      assert (Completed w0 name qs sc) as Hc by (repeat split; auto);
      pose proof (completed_pass_run env w0 name qs sc Hc) as H
    end.
    cbv zeta in H. simpl in H.
    destruct H as ((Hsh & _ & Hn' & _) & [H|[_ H]] & _).
    + destruct H as (_ & Hpa & Hsq' & Hcq' & Hsc' & _). split.
      * unfold session_shape. by rewrite Hsq', Hcq', Hsc'.
      * unfold pass_effect. split; [|split].
        -- intros n' Hn''. congruence.
        -- intros qs' Hqs'. right. split; [done|]. split; [congruence|done].
        -- by left.
    + split; [by rewrite H|]. unfold pass_effect. rewrite H. split; [|split].
      * done.
      * intros qs' Hqs'. by left.
      * by left.
Qed.

Lemma render_effect env w :
  session_shape (session_state w) →
  session_shape (session_state (render env w).1) ∧
  pass_effect env w (render env w).1.
Proof.
  intros Hok.
  assert (∀ w0 qs, session_state w0 = session_state w → sheet w0 = sheet w →
            shuffled_questions (session_state w) = Some qs →
            session_shape (session_state (quiz_body env w0).1) ∧
            pass_effect env w (quiz_body env w0).1) as Hkeep.
  { intros w0 qs Hw Hsh Hsq.
    destruct (quiz_body_effect env w0 qs) as [H1 H2]; [congruence..|].
    split; [done|]. unfold pass_effect in *. by rewrite <- Hw, <- Hsh. }
  assert (∀ name bk cl' an tm ts sh ca scr, name ≠ EmptyString →
            let w0 := mkWorld (mkSession (Some name) (Some bk) (Some 0) (Some 0)
                                 cl' an tm ts) sh ca scr in
            session_shape (session_state (quiz_body env w0).1) ∧
            player_name (session_state (quiz_body env w0).1) = Some name ∧
            (sheet (quiz_body env w0).1 = sh ∨
             ∃ name sc i,
               sheet (quiz_body env w0).1 = sh ++ [attempt name sc i] ∧ 0 ≤ i ∧
               player_name (session_state (quiz_body env w0).1) = Some name ∧
               current_q (session_state (quiz_body env w0).1) = Some (i + 1) ∧
               score (session_state (quiz_body env w0).1) = Some sc)) as Hnew.
  { intros name bk cl' an tm ts sh ca scr Hne w0. subst w0.
    match goal with |- context [quiz_body env ?w1] => set (w0 := w1) end.
    destruct (quiz_body_effect env w0 bk) as [H1 (H2 & _ & H3)]; [|done|].
    { eapply session_shape_intro; eauto; simpl; lia. }
    split; [done|]. split; [by apply H2|done]. }
  revert Hkeep. open_world w. intros Hkeep.
  unfold render, run_quiz, ask_player_name, load_questions, shuffle_once.
  unfold session_shape in Hok. simpl in Hok.
  monad_simpl.
  destruct sq as [qs|].
  - destruct cq as [i|]; [|done]. destruct sco as [sc|]; [|done].
    destruct Hok as ((name & [= ->] & Hne) & Hi & Hle). monad_simpl.
    rewrite (bool_decide_eq_false_2 (name = EmptyString)) by done.
    monad_simpl.
    destruct ca as [bk|]; monad_simpl; [by eapply Hkeep|].
    destruct (read_csv env) as [e|bk]; monad_simpl; [|by eapply Hkeep].
    split; [eapply session_shape_intro; eauto|].
    unfold pass_effect. simpl. repeat split; auto.
  - destruct cq; [done|]. destruct sco; [done|].
    unfold set_colors, set_score, set_current_q, set_shuffled_questions.
    assert (∀ name bk cl' ca' scr', name ≠ EmptyString →
              (pn = None ∨ pn = Some name) →
              let w0 := mkWorld (mkSession (Some name) (Some bk) (Some 0)
                                   (Some 0) cl' an tm ts) sh ca' scr' in
              session_shape (session_state (quiz_body env w0).1) ∧
              pass_effect env
                (mkWorld (mkSession pn None None None cl an tm ts) sh ca scr)
                (quiz_body env w0).1) as Hnew'.
    { intros name bk cl' ca' scr' Hne Hpn w0. subst w0.
      destruct (Hnew name bk cl' an tm ts sh ca' scr' Hne) as (H1 & H2 & H3).
      cbv zeta in *.
      split; [done|]. unfold pass_effect. simpl. split; [|split; [done|done]].
      intros n' Hn'. destruct Hpn as [->| ->]; [done|]. congruence. }
    assert (∀ s' sh' ca' scr',
              shuffled_questions s' = None → current_q s' = None →
              score s' = None → sh' = sh →
              (∀ n, pn = Some n → player_name s' = Some n) →
              session_shape s' ∧
              pass_effect env
                (mkWorld (mkSession pn None None None cl an tm ts) sh ca scr)
                (mkWorld s' sh' ca' scr')) as Hstay.
    { intros s' sh' ca' scr' H1 H2 H3 -> H4. split.
      - unfold session_shape. by rewrite H1, H2, H3.
      - unfold pass_effect. simpl. repeat split; auto; done. }
    destruct pn as [name|]; monad_simpl.
    + case_bool_decide as Hne; monad_simpl; [by apply Hstay|].
      destruct ca as [bk|]; monad_simpl; [apply Hnew'; auto|].
      destruct (read_csv env) as [e|bk]; monad_simpl;
        [by apply Hstay|apply Hnew'; auto].
    + case_bool_decide as Hne; monad_simpl; [by apply Hstay|].
      destruct ca as [bk|]; monad_simpl; [apply Hnew'; auto|].
      destruct (read_csv env) as [e|bk]; monad_simpl;
        [by apply Hstay|apply Hnew'; auto].
Qed.

(** X13.  In any session state that passes produce, a pass never
    changes a name once it is stored, and never replaces the question
    order: the order stays as drawn, or is deleted by Play Again, which
    needs the index to have run past the last question. *)
Theorem pass_keeps_the_name_and_the_order (env : Env) (w : World) :
  session_shape (session_state w) →
  (∀ name, player_name (session_state w) = Some name →
           player_name (session_state (render env w).1) = Some name) ∧
  (∀ qs, shuffled_questions (session_state w) = Some qs →
         shuffled_questions (session_state (render env w).1) = Some qs ∨
         shuffled_questions (session_state (render env w).1) = None ∧
         current_q (session_state w) = Some (Z.of_nat (length qs)) ∧
         play_again env = true).
Proof.
  intros Hs. destruct (render_effect env w Hs) as (_ & H1 & H2 & _). done.
Qed.

Lemma pass_keeps_the_name_and_the_order_witness :
  session_shape (session_state demo_picked) ∧
  player_name (session_state
    (render (demo_env 120 true true false false) demo_picked).1) = Some "ann".
Proof.
  assert (session_shape (session_state demo_picked)) as Hs.
  { vm_compute. repeat split; try done. by exists "ann". }
  split; [exact Hs|].
  destruct (pass_keeps_the_name_and_the_order
              (demo_env 120 true true false false) demo_picked Hs) as [H _].
  apply H. vm_compute. reflexivity.
Defined.



(** *** Whole sessions *)








(** *** The first pass *)

Lemma render_first env w bk :
  fresh w → text_input env ≠ EmptyString → bank env w = inr bk →
  random_sample env bk ≠ [] →
  render env w =
    question_pass 0 env
      (mkWorld
         (mkSession (Some (text_input env)) (Some (random_sample env bk))
            (Some 0) (Some 0) (Some (random_color env <$> seq 0 5)) ∅ ∅ ∅)
         (sheet w) (Some bk)
         [Title; Intro; TextInput;
          ProgressBar 0 (Z.of_nat (length (random_sample env bk)));
          Caption 1 (Z.of_nat (length (random_sample env bk)))]).
Proof.
  unfold fresh. intros Hf Hname Hb Hqs. open_world w. inversion Hf; subst.
  assert ((Z.of_nat (length (random_sample env bk)) =? 0) = false) as Hn0.
  { apply Z.eqb_neq. destruct (random_sample env bk); [done|]. simpl. lia. }
  assert ((0 <? Z.of_nat (length (random_sample env bk))) = true) as Hlt.
  { apply Z.ltb_lt. destruct (random_sample env bk); [done|]. simpl. lia. }
  assert ((Z.of_nat (length (random_sample env bk)) <? 0) = false) as Hge
    by (apply Z.ltb_ge; lia).
  unfold render, run_quiz, quiz_body, ask_player_name, load_questions,
    shuffle_once, show_progress.
  monad_simpl.
  rewrite (bool_decide_eq_false_2 (text_input env = EmptyString)) by done.
  unfold bank in Hb. simpl in Hb.
  destruct ca as [qs0|]; [injection Hb as ->|rewrite Hb]; monad_simpl;
    rewrite ?Hn0, ?Hlt, ?Hge; monad_simpl; rewrite ?Hn0, ?Hlt, ?Hge; done.
Qed.

(** X4.  The first pass of a session whose text input is not empty
    stores the typed name, draws the question order from the bank,
    starts the 15 second timer of question 0 at the clock and shows that
    question.  Nothing is selected yet, so the score is 0 whatever
    happens in the pass; the index is 1 only if the time was already up
    or Submit was pressed, and the row was then written. *)
Theorem first_pass_starts_the_session
    (env : Env) (w : World) (bk : list Question) (q : Question) :
  fresh w →
  text_input env ≠ EmptyString →
  bank env w = inr bk →
  random_sample env bk !! 0%nat = Some q →
  let r := remaining_time (elapsed env (clock_first env)) in
  let advanced :=
    ((r =? 0) || submit_answer env) && (auth_ok env && append_ok env) in
  let n := Z.of_nat (length (random_sample env bk)) in
  let w' := (render env w).1 in
  let s' := session_state w' in
  player_name s' = Some (text_input env) ∧
  shuffled_questions s' = Some (random_sample env bk) ∧
  score s' = Some 0 ∧
  current_q s' = Some (if advanced then 1 else 0) ∧
  timer_ s' !! 0 = Some time_limit ∧
  timer_start_ s' !! 0 = Some (clock_first env) ∧
  cache w' = Some bk ∧
  sheet w' =
    (if advanced then sheet w ++ [attempt (text_input env) 0 0] else sheet w) ∧
  ∃ rest,
    screen w' =
      [Title; Intro; TextInput; ProgressBar 0 n; Caption 1 n;
       Subheader (q_question q); Radio (split_on ";"%char (q_options q));
       TimerLine (if r <=? 5 then "red" else "black") r] ++ rest.
Proof.
  intros Hf Hname Hb Hq r advanced n w' s'.
  assert (random_sample env bk ≠ []) as Hne by (by destruct (random_sample env bk)).
  pose proof (render_first env w bk Hf Hname Hb Hne) as Hr.
  set (w1 := mkWorld _ _ _ _) in Hr.
  assert (InProgress w1 (text_input env) (random_sample env bk) 0 0 q) as Hin.
  { unfold InProgress. simpl. repeat split; auto. lia. }
  assert (timer_started env (session_state w1) 0 = Some (clock_first env))
    as Ht by reflexivity.
  pose proof (question_pass_run env w1 _ _ _ _ _ _ Hin Ht) as H.
  cbv zeta in H. rewrite <- Hr in H. fold w' in H. fold s' in H. fold r in H.
  assert (graded (session_state w1) 0 q 0 = 0) as Hg.
  { unfold graded, selected. simpl. by rewrite lookup_empty. }
  rewrite Hg in H.
  destruct H as ((Hn & Hsq & Hts & Htm & _ & Hca) & (rest & Hscr) & Hrest).
  split; [done|]. split; [done|].
  assert (score s' = Some 0 ∧ current_q s' = Some (if advanced then 1 else 0) ∧
          sheet w' = (if advanced then sheet w ++ [attempt (text_input env) 0 0]
                      else sheet w)) as (? & ? & ?).
  { unfold advanced.
    destruct ((r =? 0) || submit_answer env).
    - destruct Hrest as (? & Hrest).
      destruct (auth_ok env && append_ok env); simpl.
      + destruct Hrest as (_ & ? & ?). done.
      + destruct Hrest as (_ & ? & ?). done.
    - simpl. destruct Hrest as (? & ? & ? & _). done. }
  split; [done|]. split; [done|].
  split; [exact Htm|]. split; [done|]. split; [done|]. split; [done|].
  exists rest. exact Hscr.
Qed.

Lemma first_pass_starts_the_session_witness :
  fresh demo_fresh ∧
  current_q (session_state
    (render (demo_env 100 false false true true) demo_fresh).1) = Some 0 ∧
  timer_start_ (session_state
    (render (demo_env 100 false false true true) demo_fresh).1) !! 0 =
    Some 100%Q.
Proof.
  split; [reflexivity|].
  assert (text_input (demo_env 100 false false true true) ≠ EmptyString)
    as Hname by done.
  assert (bank (demo_env 100 false false true true) demo_fresh = inr demo_bank)
    as Hb by reflexivity.
  destruct (first_pass_starts_the_session
              (demo_env 100 false false true true) demo_fresh demo_bank
              (mkQuestion "Capital of France?" "Paris;Rome;Oslo" "Paris")
              eq_refl Hname Hb eq_refl)
    as (_ & _ & _ & Hcq & _ & Hts & _).
  split; [exact Hcq|exact Hts].
Defined.

(** *** The rank and the player's best attempt *)

Lemma key_ge_refl (a : AttemptRecord) : key_ge a a = true.
Proof.
  unfold key_ge. rewrite Z.eqb_refl. simpl.
  apply orb_true_iff. right. apply Qle_bool_iff, Qle_refl.
Qed.

Lemma key_ge_spec (a b : AttemptRecord) :
  key_ge a b = true ↔
  Score b < Score a ∨ Score a = Score b ∧ (Percentage b <= Percentage a)%Q.
Proof.
  unfold key_ge.
  rewrite orb_true_iff, andb_true_iff, Z.ltb_lt, Z.eqb_eq, Qle_bool_iff. done.
Qed.

Lemma StronglySorted_lookup_lt {A} (R : A → A → Prop) (l : list A) :
  StronglySorted R l →
  ∀ i j a b, l !! i = Some a → l !! j = Some b → (i < j)%nat → R a b.
Proof.
  induction 1 as [|x l Hs IH Hall]; intros i j a b Hi Hj Hlt.
  - by rewrite lookup_nil in Hi.
  - destruct j as [|j]; [lia|]. simpl in Hj. destruct i as [|i].
    + simpl in Hi. injection Hi as <-.
      by apply (Forall_lookup_1 _ _ _ _ Hall Hj).
    + simpl in Hi. apply (IH i j); [done..|lia].
Qed.

Lemma filter_all {A} (P : A → Prop) `{∀ x, Decision (P x)} (l : list A) :
  Forall P l → filter P l = l.
Proof.
  induction 1 as [|x l Hx _ IH]; [done|].
  by rewrite filter_cons_True, IH.
Qed.

Lemma filter_none {A} (P : A → Prop) `{∀ x, Decision (P x)} (l : list A) :
  Forall (λ x, ¬ P x) l → filter P l = [].
Proof.
  induction 1 as [|x l Hx _ IH]; [done|].
  by rewrite filter_cons_False.
Qed.

(** X17.  The rank of the completion page is the rank of the player's
    best attempt, not of the attempt just finished: the row at that
    position of the sorted sheet is one of the player's rows and no row
    of the player has a higher score, or the same score and a higher
    percentage.  The rank counts rows, not players: it is 1 plus a
    number that lies between the number of rows strictly better than
    that row and the number of other players' rows at least as good. *)
Theorem rank_is_of_the_best_attempt
    (records : list AttemptRecord) (player : string) (k : nat) :
  player_rank (sort_values records) player = inr k →
  ∃ best,
    sort_values records !! (k - 1)%nat = Some best ∧
    best ∈ records ∧ Name best = player ∧
    (1 ≤ k ≤ length records)%nat ∧
    (∀ r, r ∈ records → Name r = player →
          Score r < Score best ∨
          Score r = Score best ∧ (Percentage r <= Percentage best)%Q) ∧
    (length (filter (λ r, key_ge best r = false) records) ≤ k - 1)%nat ∧
    (k - 1 ≤ length (filter (λ r, Name r ≠ player ∧ key_ge r best = true)
                        records))%nat.
Proof.
  intros Hk. apply player_rank_first in Hk.
  destruct Hk as (Hk1 & (best & Hbest & Hname) & Hfirst).
  pose proof (sort_values_sorted records) as Hsorted.
  pose proof (sort_values_perm records) as Hperm.
  pose proof (StronglySorted_lookup_lt _ _ Hsorted) as Hlt.
  pose proof (lookup_lt_Some _ _ _ Hbest) as Hlen.
  rewrite sort_values_length in Hlen.
  assert (∀ j r, sort_values records !! j = Some r → (k - 1 ≤ j)%nat →
                 key_ge best r = true) as Hafter.
  { intros j r Hj Hle. destruct (decide (j = (k - 1)%nat)) as [->|Hne].
    - rewrite Hbest in Hj. injection Hj as <-. apply key_ge_refl.
    - apply (Hlt (k - 1)%nat j); [done..|lia]. }
  exists best. split; [done|].
  split; [rewrite <- Hperm; by eapply list_elem_of_lookup_2|].
  split; [done|]. split; [lia|]. split; [|split].
  - intros r Hr Hn. rewrite <- Hperm in Hr.
    apply list_elem_of_lookup_1 in Hr as (j & Hj).
    assert (k - 1 ≤ j)%nat as Hle.
    { destruct (decide (k - 1 ≤ j)%nat) as [|Hnle]; [done|].
      exfalso. apply (Hfirst j r); [lia|done|done]. }
    pose proof (Hafter j r Hj Hle) as Hge. apply key_ge_spec in Hge.
    destruct Hge as [?|[? ?]]; [by left|right; by split].
  - rewrite <- Hperm.
    rewrite <- (take_drop (k - 1) (sort_values records)) at 1.
    rewrite filter_app, length_app.
    rewrite (filter_none _ (drop _ _)).
    + simpl. pose proof (length_filter (λ r, key_ge best r = false)
                           (take (k - 1) (sort_values records))) as H1.
      pose proof (length_take (sort_values records) (k - 1)) as H2. lia.
    + apply Forall_lookup_2. intros j r Hj. rewrite lookup_drop in Hj.
      rewrite (Hafter _ r Hj); [done|lia].
  - rewrite <- Hperm.
    rewrite <- (take_drop (k - 1) (sort_values records)) at 1.
    rewrite filter_app, length_app.
    rewrite (filter_all _ (take _ _)).
    + rewrite length_take, sort_values_length. lia.
    + apply Forall_lookup_2. intros j r Hj.
      apply lookup_take_Some in Hj as [Hj Hjk]. split.
      * by apply (Hfirst j r).
      * by apply (Hlt j (k - 1)%nat).
Qed.

Lemma rank_is_of_the_best_attempt_witness :
  player_rank
    (sort_values [mkAttempt "ann" 1 2 50; mkAttempt "bob" 2 2 100;
                  mkAttempt "ann" 2 2 100; mkAttempt "bob" 0 2 0])
    "ann" = inr 2%nat ∧
  ∃ best,
    sort_values [mkAttempt "ann" 1 2 50; mkAttempt "bob" 2 2 100;
                 mkAttempt "ann" 2 2 100; mkAttempt "bob" 0 2 0] !! 1%nat =
      Some best ∧
    Name best = "ann".
Proof.
  assert (player_rank
    (sort_values [mkAttempt "ann" 1 2 50; mkAttempt "bob" 2 2 100;
                  mkAttempt "ann" 2 2 100; mkAttempt "bob" 0 2 0])
    "ann" = inr 2%nat) as Hk by reflexivity.
  split; [exact Hk|].
  destruct (rank_is_of_the_best_attempt _ _ _ Hk) as (best & H1 & _ & H2 & _).
  exists best. split; [exact H1|exact H2].
Defined.

(** *** What every pass keeps *)

Section frame.
Context {I : World → Prop}.

Lemma keeps_bind {A B} (m : M A) (k : A → M B) :
  keeps I m → (∀ a, keeps I (k a)) → keeps I (m ≫= k).
Proof.
  intros Hm Hk env w Hw. specialize (Hm env w Hw).
  unfold mbind, M_bind.
  destruct (m env w) as [w' [a| | |e]]; simpl in *; auto.
  by apply Hk.
Qed.

Lemma keeps_bind_at {A B} (m : M A) (k : A → M B) env w :
  I (m env w).1 → (∀ a, keeps I (k a)) → I ((m ≫= k) env w).1.
Proof.
  intros Hm Hk. unfold mbind, M_bind.
  destruct (m env w) as [w' [a| | |e]]; simpl in *; auto.
  by apply Hk.
Qed.

Lemma keeps_get_state {B} (k : SessionState → M B) :
  (∀ env w, I w → I (k (session_state w) env w).1) →
  keeps I (get_state ≫= k).
Proof. intros Hk env w Hw. by apply Hk. Qed.

Lemma keeps_same {A} (m : M A) : (∀ env w, (m env w).1 = w) → keeps I m.
Proof. intros Hm env w Hw. by rewrite Hm. Qed.

Lemma keeps_ret {A} (a : A) : keeps I (mret a).
Proof. by apply keeps_same. Qed.

Lemma keeps_raise {A} e : keeps I (raise (A:=A) e).
Proof. by apply keeps_same. Qed.

Lemma keeps_return {A} : keeps I (return_ (A:=A)).
Proof. by apply keeps_same. Qed.

Lemma keeps_rerun {A} : keeps I (experimental_rerun (A:=A)).
Proof. by apply keeps_same. Qed.

Lemma keeps_ask : keeps I ask.
Proof. by apply keeps_same. Qed.

Lemma keeps_get : keeps I get_state.
Proof. by apply keeps_same. Qed.

Lemma keeps_attr {A} (field : SessionState → option A) : keeps I (attr field).
Proof.
  apply keeps_same. intros env w. unfold attr. monad_simpl.
  by destruct (field (session_state w)).
Qed.

Lemma keeps_when b (m : M unit) : keeps I m → keeps I (when b m).
Proof. intros Hm. destruct b; [done|apply keeps_ret]. Qed.

Lemma keeps_authenticate : keeps I authenticate_google_sheets.
Proof.
  apply keeps_same. intros env w. unfold authenticate_google_sheets.
  monad_simpl. by destruct (auth_ok env).
Qed.

Lemma keeps_get_all_records : keeps I get_all_records.
Proof.
  apply keeps_same. intros env w. unfold get_all_records.
  by destruct (get_all_ok env).
Qed.

End frame.

Create HintDb keeps.
#[local] Hint Resolve keeps_ret keeps_raise keeps_return keeps_rerun keeps_ask
  keeps_get
  keeps_attr keeps_when keeps_authenticate keeps_get_all_records : keeps.

(** One step through a computation: a bind, a branch or a leaf. *)
Ltac keeps_step :=
  cbv zeta;
  lazymatch goal with
  | |- keeps _ (mbind _ _) => apply keeps_bind; [|intros ?]
  | |- keeps _ (if ?b then _ else _) => destruct b
  | |- keeps _ (match ?x with _ => _ end) => destruct x
  | |- keeps _ _ => solve [auto with keeps]
  end.

Ltac keeps_auto := repeat keeps_step.

Section kept.
Variable w0 : World.

Lemma keys_kept_refl : keys_kept w0 w0.
Proof. unfold keys_kept. repeat split; auto. Qed.

Lemma keys_kept_page s sh ca scr scr' :
  keys_kept w0 (mkWorld s sh ca scr) → keys_kept w0 (mkWorld s sh ca scr').
Proof. done. Qed.

Lemma keeps_emit e : keeps (keys_kept w0) (emit e).
Proof. intros env w Hw. by destruct w. Qed.

Lemma keeps_modify f :
  (∀ s, answer_ (f s) = answer_ s ∧ timer_ (f s) = timer_ s ∧
        timer_start_ (f s) = timer_start_ s) →
  keeps (keys_kept w0) (modify f).
Proof.
  intros Hf env w (Hc & Ht & Ha). unfold modify. monad_simpl.
  destruct (Hf (session_state w)) as (Ea & Et & Es).
  unfold keys_kept. simpl. rewrite Ea, Et, Es. done.
Qed.

Lemma keeps_append_row r : keeps (keys_kept w0) (append_row r).
Proof.
  intros env w Hw. unfold append_row. destruct (append_ok env); [|done].
  by destruct w.
Qed.

Lemma keeps_load_questions : keeps (keys_kept w0) load_questions.
Proof.
  intros env w Hw. pose proof Hw as (Hc & Ht & Ha). unfold load_questions.
  destruct (cache w) as [qs|] eqn:E; [done|].
  destruct (read_csv env) as [e|qs]; [done|].
  unfold keys_kept. simpl. split; [|done].
  intros bk Hbk. specialize (Hc bk Hbk). congruence.
Qed.

#[local] Hint Resolve keeps_emit keeps_append_row keeps_load_questions : keeps.
#[local] Hint Extern 1 (keeps _ (modify _)) =>
  (apply keeps_modify; intros ?; done) : keeps.

Lemma keeps_save_score name sc total :
  keeps (keys_kept w0) (save_score name sc total).
Proof. unfold save_score. keeps_auto. Qed.

Lemma keeps_load_leaderboard : keeps (keys_kept w0) load_leaderboard.
Proof. unfold load_leaderboard. keeps_auto. Qed.

Lemma keeps_show_leaderboard_chart top :
  keeps (keys_kept w0) (show_leaderboard_chart top).
Proof. unfold show_leaderboard_chart. keeps_auto. Qed.

Lemma keeps_leaderboard_rows rows : ∀ i,
  keeps (keys_kept w0) (leaderboard_rows i rows).
Proof.
  induction rows as [|row rest IH]; intros i; simpl; [apply keeps_ret|].
  keeps_auto.
Qed.

#[local] Hint Resolve keeps_save_score keeps_load_leaderboard
  keeps_show_leaderboard_chart keeps_leaderboard_rows : keeps.

Lemma keeps_leaderboard_panel title :
  keeps (keys_kept w0) (leaderboard_panel title).
Proof. unfold leaderboard_panel. keeps_auto. Qed.

Lemma keeps_grade q i miss : keeps (keys_kept w0) (grade q i miss).
Proof. unfold grade. keeps_auto. Qed.

#[local] Hint Resolve keeps_leaderboard_panel keeps_grade : keeps.

Lemma keeps_submit q i miss : keeps (keys_kept w0) (submit q i miss).
Proof. unfold submit. keeps_auto. Qed.

Lemma keeps_restart : keeps (keys_kept w0) restart.
Proof. unfold restart. keeps_auto. Qed.

#[local] Hint Resolve keeps_submit keeps_restart : keeps.

Lemma keeps_completed_pass : keeps (keys_kept w0) completed_pass.
Proof. unfold completed_pass. keeps_auto. Qed.

Lemma keeps_show_progress i : keeps (keys_kept w0) (show_progress i).
Proof. unfold show_progress. keeps_auto. Qed.

Lemma keeps_ask_player_name : keeps (keys_kept w0) ask_player_name.
Proof. unfold ask_player_name. keeps_auto. Qed.

Lemma keeps_shuffle_once qs : keeps (keys_kept w0) (shuffle_once qs).
Proof. unfold shuffle_once. keeps_auto. Qed.

(** The two places where a pass writes a key of a question: it does
    so only when the key is missing. *)
Lemma keeps_question_pass i : keeps (keys_kept w0) (question_pass i).
Proof.
  unfold question_pass. keeps_step; [auto with keeps|].
  keeps_step; [|auto with keeps].
  keeps_step; [auto with keeps|].
  cbv zeta. apply keeps_get_state. intros env w Hw.
  apply keeps_bind_at.
  { case_bool_decide as Hmiss; [|done].
    destruct Hw as (Hc & Ht & Ha). monad_simpl. unfold keys_kept. simpl.
    split; [done|]. split; [done|]. intros j v Hj.
    rewrite lookup_insert_ne; [by apply (Ha j v)|].
    intros <-. specialize (Ha _ _ Hj). congruence. }
  intros _. keeps_step; [auto with keeps|].
  apply keeps_get_state. clear env w Hw. intros env w Hw.
  apply keeps_bind_at.
  { case_bool_decide as Hmiss; [|done].
    destruct Hw as (Hc & Ht & Ha). monad_simpl. unfold keys_kept. simpl.
    split; [done|]. split; [|done]. intros j v Hj.
    destruct (Ht j v Hj) as [Hj' Hs].
    assert (i ≠ j) as Hne by (intros <-; congruence).
    by rewrite !lookup_insert_ne. }
  intros _. keeps_auto.
Qed.

#[local] Hint Resolve keeps_completed_pass keeps_show_progress
  keeps_ask_player_name keeps_shuffle_once keeps_question_pass : keeps.

Lemma keeps_quiz_body : keeps (keys_kept w0) quiz_body.
Proof. unfold quiz_body. keeps_auto. Qed.

Lemma keeps_run_quiz : keeps (keys_kept w0) run_quiz.
Proof. unfold run_quiz. pose proof keeps_quiz_body. keeps_auto. Qed.

End kept.

Lemma render_keeps env w : keys_kept w (render env w).1.
Proof.
  unfold render. apply keeps_run_quiz.
  apply (keys_kept_page w _ _ _ (screen w)). destruct w. apply keys_kept_refl.
Qed.

Lemma step_keeps_timers w ev i v :
  timer_ (session_state w) !! i = Some v →
  timer_ (session_state (step w ev)) !! i = Some v ∧
  timer_start_ (session_state (step w ev)) !! i =
    timer_start_ (session_state w) !! i.
Proof.
  intros Hi. destruct ev as [env|j o|j]; [|done..].
  destruct (render_keeps env w) as (_ & Ht & _). by apply (Ht i v).
Qed.

Lemma step_keeps_cache w ev bk :
  cache w = Some bk → cache (step w ev) = Some bk.
Proof.
  intros Hc. destruct ev as [env|j o|j]; [|done..].
  destruct (render_keeps env w) as (H & _ & _). by apply H.
Qed.

(** X18.  The timer of a question is never restarted.  Once a question
    has its timer, no pass, selection or dropped widget key changes its
    limit or its start, not even Play Again: after any session the start
    a pass works with is the one stored first. *)
Theorem timers_are_never_restarted
    (w0 : World) (evs : list Event) (i v : Z) :
  timer_ (session_state w0) !! i = Some v →
  timer_ (session_state (run w0 evs)) !! i = Some v ∧
  timer_start_ (session_state (run w0 evs)) !! i =
    timer_start_ (session_state w0) !! i ∧
  ∀ env, timer_started env (session_state (run w0 evs)) i =
         timer_start_ (session_state w0) !! i.
Proof.
  revert w0. induction evs as [|ev evs IH]; intros w Hi.
  - split; [done|]. split; [done|]. intros env. unfold timer_started.
    simpl. by rewrite Hi.
  - rewrite run_cons. destruct (step_keeps_timers w ev i v Hi) as [H1 H2].
    destruct (IH (step w ev) H1) as (IH1 & IH2 & IH3).
    split; [done|]. split; [by rewrite IH2|].
    intros env. by rewrite IH3.
Qed.

Lemma timers_are_never_restarted_witness :
  timer_ (session_state demo_shown) !! 0 = Some 15 ∧
  timer_start_
    (session_state
       (run demo_shown
          [Select 0 "Rome"; tick 103; Forget 0; tick 110;
           Pass (demo_env 130 false true true true); tick 140])) !! 0 =
    timer_start_ (session_state demo_shown) !! 0.
Proof.
  assert (timer_ (session_state demo_shown) !! 0 = Some 15) as Hi
    by (vm_compute; reflexivity).
  split; [exact Hi|].
  destruct (timers_are_never_restarted demo_shown
              [Select 0 "Rome"; tick 103; Forget 0; tick 110;
               Pass (demo_env 130 false true true true); tick 140] 0 15 Hi)
    as (_ & H & _).
  exact H.
Defined.

(** X19.  The question bank is fixed for the session.  Once the bank
    is cached, every later pass of the session gets the same rows from
    [load_questions], whatever the file holds by then and whether it can
    still be read. *)
Theorem bank_is_fixed_for_the_session
    (w0 : World) (evs : list Event) (bk : list Question) :
  cache w0 = Some bk →
  cache (run w0 evs) = Some bk ∧
  ∀ env, load_questions env (run w0 evs) = (run w0 evs, Value bk).
Proof.
  intros Hc.
  assert (cache (run w0 evs) = Some bk) as H.
  { revert w0 Hc. induction evs as [|ev evs IH]; intros w Hc; [done|].
    rewrite run_cons. apply IH. by apply step_keeps_cache. }
  split; [done|]. intros env. unfold load_questions. by rewrite H.
Qed.

Lemma bank_is_fixed_for_the_session_witness :
  cache demo_shown = Some demo_bank ∧
  cache (run demo_shown
           [Select 0 "Paris";
            Pass (mkEnv "ann" true false 105 105 (λ l, l) (λ _, "red")
                    (inl FileNotFoundError) true true true)]) =
    Some demo_bank.
Proof.
  assert (cache demo_shown = Some demo_bank) as Hc by (vm_compute; reflexivity).
  split; [exact Hc|].
  destruct (bank_is_fixed_for_the_session demo_shown
              [Select 0 "Paris";
               Pass (mkEnv "ann" true false 105 105 (λ l, l) (λ _, "red")
                       (inl FileNotFoundError) true true true)]
              demo_bank Hc) as [H _].
  exact H.
Defined.



(** *** How a pass may end *)

Lemma Started_sound name qs i w :
  Started name qs i w → session_sound (session_state w).
Proof.
  intros (Hn & Hne & Hsq & Hcq & Hi & [sc Hsc] & [cs Hcs] & Ht).
  split; [done|]. rewrite Hsq, Hcq, Hsc, Hcs. split; [by exists name|done].
Qed.

Lemma triple_bind {A B} P (m : M A) (k : A → M B) Q Q' :
  triple P m Q → (∀ a, triple (Q a) (k a) Q') → triple P (m ≫= k) Q'.
Proof.
  intros Hm Hk env w Hw. specialize (Hm env w Hw).
  unfold mbind, M_bind.
  destruct (m env w) as [w' [a| | |e]]; simpl in *; auto.
  by apply Hk.
Qed.

Lemma ends_well_bind {A B} (m : M A) (k : A → M B) Q Q' env w :
  ends_well Q env (m env w) → (∀ a, triple (Q a) (k a) Q') →
  ends_well Q' env ((m ≫= k) env w).
Proof.
  intros Hm Hk. unfold mbind, M_bind.
  destruct (m env w) as [w' [a| | |e]]; simpl in *; auto.
  by apply Hk.
Qed.

Lemma triple_get_state_bind {B} P (k : SessionState → M B) Q :
  (∀ env w, P w → ends_well Q env (k (session_state w) env w)) →
  triple P (get_state ≫= k) Q.
Proof. intros Hk env w Hw. by apply Hk. Qed.

Lemma triple_conseq {A} (P P' : World → Prop) (m : M A)
    (Q Q' : A → World → Prop) :
  (∀ w, P' w → P w) → (∀ a w, Q a w → Q' a w) →
  triple P m Q → triple P' m Q'.
Proof.
  intros HP HQ Hm env w Hw. specialize (Hm env w (HP w Hw)).
  destruct (m env w) as [w' [a| | |e]]; simpl in *; auto.
Qed.

Lemma triple_pre {A} (P P' : World → Prop) (m : M A) Q :
  (∀ w, P' w → P w) → triple P m Q → triple P' m Q.
Proof. intros HP. by apply triple_conseq. Qed.

Lemma triple_exists {A X} (P : X → World → Prop) (m : M A) Q :
  (∀ x, triple (P x) m Q) → triple (λ w, ∃ x, P x w) m Q.
Proof. intros Hm env w [x Hx]. by apply (Hm x). Qed.

Lemma triple_ret {A} (P : World → Prop) (a : A) : triple P (mret a) (λ _, P).
Proof. intros env w Hw. done. Qed.

Lemma triple_value {A} (P : World → Prop) (a : A) (Q : A → World → Prop) :
  (∀ w, P w → Q a w) → triple P (mret a) Q.
Proof. intros HP env w Hw. by apply HP. Qed.

Lemma triple_ask P : triple P ask (λ _, P).
Proof. intros env w Hw. done. Qed.

Lemma triple_emit (P : World → Prop) e :
  (∀ s sh ca scr scr', P (mkWorld s sh ca scr) → P (mkWorld s sh ca scr')) →
  triple P (emit e) (λ _, P).
Proof. intros HP env w Hw. destruct w. simpl. by eapply HP. Qed.

Lemma triple_attr {A} (P : World → Prop) (field : SessionState → option A) :
  (∀ w, P w → is_Some (field (session_state w))) →
  triple P (attr field) (λ a w, P w ∧ field (session_state w) = Some a).
Proof.
  intros HP env w Hw. destruct (HP w Hw) as [a Ha].
  unfold attr. monad_simpl. rewrite Ha. done.
Qed.

Lemma triple_modify (P : World → Prop) f (Q : unit → World → Prop) :
  (∀ w, P w →
        Q () (mkWorld (f (session_state w)) (sheet w) (cache w) (screen w))) →
  triple P (modify f) Q.
Proof. intros HP env w Hw. unfold modify. monad_simpl. by apply HP. Qed.

Lemma triple_rerun {A} (P : World → Prop) (Q : A → World → Prop) :
  (∀ w, P w → session_sound (session_state w)) →
  triple P experimental_rerun Q.
Proof. intros HP env w Hw. by apply HP. Qed.

Lemma triple_return {A} (P : World → Prop) (Q : A → World → Prop) :
  (∀ w, P w → session_sound (session_state w)) →
  triple P return_ Q.
Proof. intros HP env w Hw. by apply HP. Qed.

Lemma triple_raise {A} (P : World → Prop) e (Q : A → World → Prop) :
  (∀ env w, P w → session_sound (session_state w) ∧ expected env w e) →
  triple P (raise e) Q.
Proof. intros HP env w Hw. by apply HP. Qed.

Lemma triple_when (P : World → Prop) (b : bool) (m : M unit) :
  (b = true → triple P m (λ _, P)) → triple P (when b m) (λ _, P).
Proof. intros Hm. destruct b; [by apply Hm|apply triple_ret]. Qed.

(** The Google Sheets functions raise only when the service is down. *)
Lemma triple_authenticate (P : World → Prop) :
  (∀ w, P w → session_sound (session_state w)) →
  triple P authenticate_google_sheets (λ _, P).
Proof.
  intros HP env w Hw. unfold authenticate_google_sheets. monad_simpl.
  destruct (auth_ok env) eqn:E; simpl; [done|].
  split; [by apply HP|]. right. left. by rewrite E.
Qed.

Lemma triple_append_row (P : World → Prop) r :
  (∀ w, P w → session_sound (session_state w)) →
  (∀ s sh ca scr sh', P (mkWorld s sh ca scr) → P (mkWorld s sh' ca scr)) →
  triple P (append_row r) (λ _, P).
Proof.
  intros HP Hsh env w Hw. unfold append_row.
  destruct (append_ok env) eqn:E; simpl.
  - destruct w. simpl. by eapply Hsh.
  - split; [by apply HP|]. right. left. rewrite E.
    by rewrite andb_false_r.
Qed.

Lemma triple_get_all_records (P : World → Prop) :
  (∀ w, P w → session_sound (session_state w)) →
  triple P get_all_records (λ d w, P w ∧ d = sheet w).
Proof.
  intros HP env w Hw. unfold get_all_records.
  destruct (get_all_ok env) eqn:E; simpl; [done|].
  split; [by apply HP|]. right. left. rewrite E. by rewrite andb_false_r.
Qed.

Lemma triple_save_score (P : World → Prop) name sc total :
  total ≠ 0 →
  (∀ w, P w → session_sound (session_state w)) →
  (∀ s sh ca scr sh', P (mkWorld s sh ca scr) → P (mkWorld s sh' ca scr)) →
  triple P (save_score name sc total) (λ _, P).
Proof.
  intros Ht HP Hsh. unfold save_score.
  eapply triple_bind; [by apply triple_authenticate|intros ?; cbv beta].
  apply Z.eqb_neq in Ht. rewrite Ht.
  eapply triple_bind; [apply triple_ret|intros p; cbv beta].
  by apply triple_append_row.
Qed.

Lemma triple_load_questions (P : World → Prop) :
  (∀ w, P w → session_sound (session_state w)) →
  (∀ s sh ca scr ca', P (mkWorld s sh ca scr) → P (mkWorld s sh ca' scr)) →
  triple P load_questions (λ _, P).
Proof.
  intros HP Hca env w Hw. unfold load_questions.
  destruct (cache w) as [qs|] eqn:Ec; simpl; [done|].
  destruct (read_csv env) as [e|qs] eqn:Er; simpl.
  - split; [by apply HP|]. by left.
  - destruct w. by eapply Hca.
Qed.

(** The leaderboard, read with the colours there. *)
Lemma triple_leaderboard_panel (P : World → Prop) title :
  (∀ w, P w → session_sound (session_state w)) →
  (∀ w, P w → is_Some (colors (session_state w))) →
  (∀ s sh ca scr scr', P (mkWorld s sh ca scr) → P (mkWorld s sh ca scr')) →
  triple P (leaderboard_panel title)
    (λ l w, P w ∧ l = sort_values (sheet w)).
Proof.
  intros HP Hcs Hscr env w Hw.
  destruct (auth_ok env && get_all_ok env) eqn:E.
  - apply andb_true_iff in E as [Ea Eg]. destruct (Hcs w Hw) as [cs Hc].
    destruct (leaderboard_panel_run title env w cs Ea Eg Hc) as (ch & -> & _).
    simpl. split; [|done]. destruct w. by eapply Hscr.
  - rewrite (leaderboard_panel_down title env w E). simpl.
    split; [by apply HP|]. right. left.
    apply andb_false_iff in E as [->| ->]; [done|].
    by rewrite andb_false_r.
Qed.

(** Side conditions: an assertion on the session state does not look
    at the page, the sheet or the cache. *)
Ltac open_assertions :=
  intros;
  repeat match goal with w : World |- _ => destruct w end;
  unfold Ready, Started in *; simpl in *.

Ltac side := open_assertions; intuition (eauto; congruence).

Ltac triple_seq rule :=
  eapply triple_bind; [rule|intros ?; cbv beta].

Lemma triple_pure {A} (φ : Prop) (P : World → Prop) (m : M A) Q :
  (∀ w, P w → φ) → (φ → triple P m Q) → triple P m Q.
Proof. intros H1 H2 env w Hw. by apply (H2 (H1 w Hw)). Qed.

Lemma py_getitem_in_range {A} (l : list A) (i : Z) :
  0 ≤ i < Z.of_nat (length l) → is_Some (py_getitem l i).
Proof.
  intros Hi. unfold py_getitem.
  assert ((0 <=? i) = true) as -> by (apply Z.leb_le; lia).
  apply lookup_lt_is_Some. lia.
Qed.

Lemma player_rank_error l player e :
  player_rank l player = inl e → e = IndexError.
Proof.
  unfold player_rank. destruct (index_where _ _ _); [|done]. by intros [= <-].
Qed.

Section started.
Variables (name : string) (qs : list Question) (i : Z).

Lemma Ready_sound w : Ready name qs i w → session_sound (session_state w).
Proof. intros [H _]. by eapply Started_sound. Qed.

Lemma triple_grade q miss :
  triple (Ready name qs i) (grade q i miss) (λ _, Ready name qs i).
Proof.
  unfold grade. apply triple_get_state_bind. intros env w Hw.
  pose proof Hw as (Hst & Hlt & [a Ha] & Hts). rewrite Ha.
  case_bool_decide.
  - refine ((_ : triple (Ready name qs i) _ _) env w Hw).
    triple_seq ltac:(apply triple_emit; side).
    triple_seq ltac:(apply triple_emit; side).
    triple_seq ltac:(apply triple_attr; side).
    apply triple_modify. side.
  - refine ((_ : triple (Ready name qs i) _ _) env w Hw).
    apply triple_emit. side.
Qed.

(** Submitting ends the pass: with a rerun, the index one further and
    still within the order, or with the failure of the write. *)
Lemma triple_submit q miss Q :
  0 ≤ i → triple (Ready name qs i) (submit q i miss) Q.
Proof.
  intros Hi. unfold submit.
  triple_seq ltac:(apply triple_grade).
  triple_seq ltac:(apply triple_attr; side).
  triple_seq ltac:(apply triple_attr; side).
  eapply triple_bind.
  { eapply triple_pre; [|apply (triple_save_score (Ready name qs i))].
    - intros w H. apply H.
    - lia.
    - apply Ready_sound.
    - side. }
  intros ?; cbv beta.
  triple_seq ltac:(apply triple_attr; side).
  eapply triple_bind; [|intros ?; apply triple_rerun; intros w H; exact H].
  apply triple_modify. intros w (Hr & Hcq). cbv beta.
  destruct Hr as ((Hn & Hne & Hsq & Hcq' & Hb & [sc Hsc] & [cs Hcs] & Ht) &
                  Hlt & _).
  split; [done|]. simpl. rewrite Hsq, Hsc, Hcs.
  split; [by exists name|]. rewrite Hcq' in Hcq. injection Hcq as <-. lia.
Qed.

Lemma triple_question_pass :
  0 ≤ i < Z.of_nat (length qs) →
  triple (Started name qs i) (question_pass i)
    (λ _ w, session_sound (session_state w)).
Proof.
  intros Hi. unfold question_pass.
  eapply triple_bind; [apply triple_attr; side|intros shuffled; cbv beta].
  apply (triple_pure (shuffled = qs)); [side|intros ->].
  destruct (py_getitem_in_range qs i Hi) as [q ->].
  apply (triple_pre (Started name qs i)); [side|].
  triple_seq ltac:(apply triple_emit; side).
  cbv zeta. apply triple_get_state_bind. intros env w Hw.
  eapply (ends_well_bind _ _
            (λ _ w, Started name qs i w ∧
                    is_Some (answer_ (session_state w) !! i))).
  { case_bool_decide as Hmiss; monad_simpl.
    - split; [done|]. by rewrite lookup_insert_eq.
    - split; [done|]. by destruct (answer_ (session_state w) !! i). }
  intros _.
  triple_seq ltac:(apply triple_emit; side).
  apply triple_get_state_bind. clear env w Hw. intros env w Hw.
  eapply (ends_well_bind _ _ (λ _, Ready name qs i)).
  { destruct Hw as (Hst & Han).
    destruct Hst as (Hn & Hne & Hsq & Hcq & Hb & Hsc & Hcs & Ht).
    case_bool_decide as Hmiss; monad_simpl.
    - unfold Ready, Started. simpl. rewrite lookup_insert_eq.
      repeat split; auto; try lia.
      unfold timers_paired. simpl.
      intros j Hj. destruct (decide (i = j)) as [<-|Hne'].
      + by rewrite lookup_insert_eq.
      + rewrite lookup_insert_ne in Hj by done.
        rewrite lookup_insert_ne by done. by apply Ht.
    - unfold Ready, Started. repeat split; auto; try lia.
      apply Ht. by destruct (timer_ (session_state w) !! i). }
  intros _.
  triple_seq ltac:(apply triple_ask).
  apply triple_get_state_bind. clear env w Hw. intros env w Hw.
  pose proof Hw as (_ & _ & _ & [start ->]). cbv zeta.
  refine ((_ : triple (Ready name qs i) _ _) env w Hw).
  triple_seq ltac:(apply triple_emit; side).
  triple_seq ltac:(apply triple_when; intros _; apply triple_submit; lia).
  triple_seq ltac:(apply triple_when; intros _; apply triple_submit; lia).
  triple_seq ltac:(apply triple_emit; side).
  triple_seq ltac:(apply triple_leaderboard_panel;
                   [apply Ready_sound|side|side]).
  apply triple_value. intros w' [H _]. by apply Ready_sound in H.
Qed.

Lemma triple_restart (P : World → Prop) Q :
  (∀ w, P w → timers_paired (session_state w)) → triple P restart Q.
Proof.
  intros HP env w Hw. unfold restart. monad_simpl.
  split; [|done]. by apply HP.
Qed.

(** The completion branch raises only for a sheet that is down or that
    does not name the player. *)
Lemma triple_completed_pass :
  i = Z.of_nat (length qs) →
  triple (Started name qs i) completed_pass
    (λ _ w, session_sound (session_state w)).
Proof.
  intros ->. unfold completed_pass.
  triple_seq ltac:(apply triple_emit; side).
  triple_seq ltac:(apply triple_emit; side).
  triple_seq ltac:(apply triple_emit; side).
  eapply triple_bind; [apply triple_attr; side|intros shuffled; cbv beta].
  apply (triple_pure (shuffled = qs)); [side|intros ->].
  apply (triple_pre (Started name qs (Z.of_nat (length qs)))); [side|].
  cbv zeta.
  triple_seq ltac:(apply triple_attr; side).
  apply (triple_pre (Started name qs (Z.of_nat (length qs)))); [side|].
  triple_seq ltac:(apply triple_when; intros Hz; apply triple_raise).
  { intros env w Hw. split; [by eapply Started_sound|].
    right. right. left. split; [done|].
    apply Z.eqb_eq in Hz. destruct qs; [side|done]. }
  triple_seq ltac:(apply triple_emit; side).
  triple_seq ltac:(apply triple_emit; side).
  eapply triple_bind;
    [apply triple_leaderboard_panel; [apply Started_sound|side|side]
    |intros leaderboard; cbv beta].
  eapply triple_bind; [apply triple_attr; side|intros name'; cbv beta].
  apply (triple_pure (name' = name)); [side|intros ->].
  destruct (player_rank leaderboard name) as [e|r] eqn:Er.
  - apply triple_raise. intros env w ((Hst & ->) & _).
    split; [by eapply Started_sound|].
    pose proof (player_rank_error _ _ _ Er) as ->.
    right. right. right. split; [done|]. exists name, qs.
    destruct Hst as (Hn & _ & Hsq & Hcq & _).
    repeat split; auto. intros r Hr.
    apply (proj1 (player_rank_missing name (sort_values (sheet w))) Er).
    by rewrite sort_values_perm.
  - apply (triple_pre (Started name qs (Z.of_nat (length qs)))); [side|].
    eapply triple_bind.
    { instantiate (1 := λ _, Started name qs (Z.of_nat (length qs))).
      repeat case_bool_decide.
      - triple_seq ltac:(apply triple_emit; side).
        triple_seq ltac:(apply triple_emit; side).
        apply triple_emit; side.
      - apply triple_emit; side.
      - apply triple_emit; side. }
    intros ?; cbv beta.
    eapply triple_bind; [apply triple_ask|intros env'; cbv beta].
    destruct (play_again env').
    + apply triple_restart. side.
    + apply triple_value. intros w'. apply Started_sound.
Qed.

Lemma triple_show_progress :
  triple (Started name qs i) (show_progress i) (λ _, Started name qs i).
Proof.
  unfold show_progress.
  apply (triple_pure (0 ≤ i ≤ Z.of_nat (length qs))); [side|intros Hi].
  eapply triple_bind; [apply triple_attr; side|intros shuffled; cbv beta].
  apply (triple_pure (shuffled = qs)); [side|intros ->].
  apply (triple_pre (Started name qs i)); [side|].
  cbv zeta.
  triple_seq ltac:(apply triple_when; intros Hz; apply triple_raise).
  { intros env w Hw. split; [by eapply Started_sound|].
    right. right. left. split; [done|].
    apply Z.eqb_eq in Hz. destruct qs; [side|done]. }
  triple_seq ltac:(apply triple_when; intros Hb; exfalso).
  { apply orb_true_iff in Hb as [Hb|Hb]; apply Z.ltb_lt in Hb; lia. }
  triple_seq ltac:(apply triple_emit; side).
  apply triple_emit; side.
Qed.

Lemma triple_quiz_body :
  triple (Started name qs i) quiz_body
    (λ _ w, session_sound (session_state w)).
Proof.
  unfold quiz_body.
  apply (triple_pure (0 ≤ i ≤ Z.of_nat (length qs))); [side|intros Hi].
  eapply triple_bind; [apply triple_attr; side|intros q_index; cbv beta].
  apply (triple_pure (q_index = i)); [side|intros ->].
  apply (triple_pre (Started name qs i)); [side|].
  triple_seq ltac:(apply triple_show_progress).
  eapply triple_bind; [apply triple_attr; side|intros shuffled; cbv beta].
  apply (triple_pure (shuffled = qs)); [side|intros ->].
  apply (triple_pre (Started name qs i)); [side|].
  destruct (i <? Z.of_nat (length qs)) eqn:E.
  - apply triple_question_pass. apply Z.ltb_lt in E. lia.
  - apply triple_completed_pass. apply Z.ltb_ge in E. lia.
Qed.

End started.

Lemma session_sound_named s name :
  session_sound s → player_name s = None →
  session_sound (set_player_name (Some name) s).
Proof.
  intros [Ht H] Hn. split; [done|]. simpl.
  destruct (shuffled_questions s), (current_q s), (score s), (colors s);
    try done.
  destruct H as [(n & Hn' & _) _]. congruence.
Qed.

Lemma triple_ask_player_name :
  triple (λ w, session_sound (session_state w)) ask_player_name
    (λ name w, session_sound (session_state w) ∧
               player_name (session_state w) = Some name ∧
               name ≠ EmptyString).
Proof.
  unfold ask_player_name. apply triple_get_state_bind. intros env w Hw.
  eapply (ends_well_bind _ _
            (λ _ w, session_sound (session_state w) ∧
                    is_Some (player_name (session_state w)))).
  { case_bool_decide as Hmiss; monad_simpl.
    - split; [by apply session_sound_named|done].
    - split; [done|]. by destruct (player_name (session_state w)). }
  intros _.
  eapply triple_bind; [apply triple_attr; side|intros name; cbv beta].
  case_bool_decide as Hname.
  - triple_seq ltac:(apply triple_emit; side).
    apply triple_return. side.
  - apply triple_value. side.
Qed.

Lemma triple_shuffle_once name questions :
  triple (λ w, session_sound (session_state w) ∧
               player_name (session_state w) = Some name ∧
               name ≠ EmptyString)
    (shuffle_once questions)
    (λ _ w, ∃ qs i, Started name qs i w).
Proof.
  unfold shuffle_once. apply triple_get_state_bind.
  intros env w ([Ht Hs] & Hn & Hne).
  case_bool_decide as Hmiss; monad_simpl.
  - exists (random_sample env questions), 0. unfold Started. simpl.
    repeat split; auto; lia.
  - destruct (shuffled_questions (session_state w)) as [qs|] eqn:Hsq; [|done].
    destruct (current_q (session_state w)) as [i|] eqn:Hcq; [|done].
    destruct (score (session_state w)) as [sc|] eqn:Hsc; [|done].
    destruct (colors (session_state w)) as [cs|] eqn:Hcs; [|done].
    exists qs, i. unfold Started. rewrite Hsq, Hcq, Hsc, Hcs.
    destruct Hs as [_ Hi]. repeat split; auto; lia.
Qed.

Lemma triple_run_quiz :
  triple (λ w, session_sound (session_state w)) run_quiz
    (λ _ w, session_sound (session_state w)).
Proof.
  unfold run_quiz.
  triple_seq ltac:(apply triple_emit; side).
  triple_seq ltac:(apply triple_emit; side).
  eapply triple_bind; [apply triple_ask_player_name|intros name; cbv beta].
  eapply triple_bind;
    [apply triple_load_questions; side|intros questions; cbv beta].
  triple_seq ltac:(apply triple_shuffle_once).
  apply triple_exists. intros qs. apply triple_exists. intros i.
  apply triple_quiz_body.
Qed.

(** A pass from a sound state ends in a sound state, and with an
    expected exception if with one. *)
Lemma render_sound env w :
  session_sound (session_state w) →
  session_sound (session_state (render env w).1) ∧
  ∀ e, (render env w).2 = Raised e → expected env (render env w).1 e.
Proof.
  intros Hs. unfold render.
  pose proof (triple_run_quiz env
                (mkWorld (session_state w) (sheet w) (cache w) []) Hs) as H.
  destruct (run_quiz env _) as [w' [a| | |e]]; simpl in *; try done.
  destruct H as [H1 H2]. split; [done|]. by intros e' [= <-].
Qed.

Lemma run_sound evs : ∀ w,
  session_sound (session_state w) → session_sound (session_state (run w evs)).
Proof.
  induction evs as [|ev evs IH]; intros w Hs; [done|].
  rewrite run_cons. apply IH. destruct ev as [env|j o|j]; simpl.
  - by apply render_sound.
  - done.
  - done.
Qed.



(** X22.  In a session that starts from an empty session state the
    keys the script reads are always there together: after any passes
    and selections, the question order, the index, the score and the
    row colours are all set or all missing; when they are set a
    non-empty name is stored and the index lies between 0 and the
    length of the order; and every question that has a timer has the
    start of that timer. *)
Theorem session_keys_come_together (w0 : World) (evs : list Event) :
  fresh w0 →
  let s := session_state (run w0 evs) in
  (∀ j, is_Some (timer_ s !! j) → is_Some (timer_start_ s !! j)) ∧
  match shuffled_questions s, current_q s, score s, colors s with
  | None, None, None, None => True
  | Some qs, Some i, Some _, Some _ =>
      (∃ name, player_name s = Some name ∧ name ≠ EmptyString) ∧
      0 ≤ i ≤ Z.of_nat (length qs)
  | _, _, _, _ => False
  end.
Proof.
  intros Hfresh s.
  assert (session_sound (session_state w0)) as Hs0.
  { unfold fresh in Hfresh. rewrite Hfresh. split; [|done].
    intros j [v Hj]. simpl in Hj. by rewrite lookup_empty in Hj. }
  exact (run_sound evs w0 Hs0).
Qed.

Lemma session_keys_come_together_witness :
  fresh demo_fresh ∧
  ∀ j,
    is_Some (timer_ (session_state
      (run demo_fresh
         [tick 100; Select 0 "Rome"; tick 116; Forget 0; tick 140;
          Pass (demo_env 150 false true true true)])) !! j) →
    is_Some (timer_start_ (session_state
      (run demo_fresh
         [tick 100; Select 0 "Rome"; tick 116; Forget 0; tick 140;
          Pass (demo_env 150 false true true true)])) !! j).
Proof.
  split; [reflexivity|].
  destruct (session_keys_come_together demo_fresh
              [tick 100; Select 0 "Rome"; tick 116; Forget 0; tick 140;
               Pass (demo_env 150 false true true true)] eq_refl) as [H _].
  exact H.
Defined.
